(** * BuyingCenter dashboards: identifier normalisation, joins and
      contact classification

    A shallow embedding of the data pipeline of the two Streamlit scripts
    [app.py] and [app3.py]: the Python string primitives the scripts call,
    the pandas cell / row / frame model, the scripts' own functions
    ([normalize_id], [has_engaged_match], [check_engaged],
    [get_status_color], [load_data], [load_csv_from_github]) and the
    top-level statements that join the three tables.

    Text is modelled on 7-bit code points: [upper], [lower] and [is_space]
    are Python's on that range and leave every other byte alone. *)

From stdpp Require Import base strings list gmap.
From Stdlib Require Import Ascii.

(** ** Python [str] primitives *)

Module Py.

(** [str.isspace] on one code point: TAB..CR, FS..US and the blank. *)
Definition is_space (c : ascii) : bool :=
  let n := nat_of_ascii c in
  ((9 <=? n) && (n <=? 13)) || ((28 <=? n) && (n <=? 32)).

Definition upper_char (c : ascii) : ascii :=
  let n := nat_of_ascii c in
  if (97 <=? n) && (n <=? 122) then ascii_of_nat (n - 32) else c.

Definition lower_char (c : ascii) : ascii :=
  let n := nat_of_ascii c in
  if (65 <=? n) && (n <=? 90) then ascii_of_nat (n + 32) else c.

Fixpoint map_chars (f : ascii → ascii) (s : string) : string :=
  match s with
  | EmptyString => EmptyString
  | String c s' => String (f c) (map_chars f s')
  end.

(** [s.upper()] and [s.lower()] *)
Definition upper : string → string := map_chars upper_char.
Definition lower : string → string := map_chars lower_char.

Fixpoint lstrip (s : string) : string :=
  match s with
  | EmptyString => EmptyString
  | String c s' => if is_space c then lstrip s' else s
  end.

Fixpoint rstrip (s : string) : string :=
  match s with
  | EmptyString => EmptyString
  | String c s' =>
      match rstrip s' with
      | EmptyString => if is_space c then EmptyString else String c EmptyString
      | r => String c r
      end
  end.

(** [s.strip()] *)
Definition strip (s : string) : string := rstrip (lstrip s).

(** [s.startswith(p)] *)
Fixpoint starts_with (p s : string) : bool :=
  match p, s with
  | EmptyString, _ => true
  | String a p', String b s' => bool_decide (a = b) && starts_with p' s'
  | String _ _, EmptyString => false
  end.


(** The scan of [s.replace(old, new)] for a non-empty [old]: left to
    right, at each position either an occurrence of [old] starts (emit
    [new] and skip the rest of the occurrence) or the character is
    copied.  [skip] counts the characters of a matched occurrence still
    to be passed over. *)
Fixpoint replace_scan (old new : string) (skip : nat) (s : string) : string :=
  match s with
  | EmptyString => EmptyString
  | String c s' =>
      match skip with
      | S k => replace_scan old new k s'
      | O =>
          if starts_with old s
          then new +:+ replace_scan old new (String.length old - 1) s'
          else String c (replace_scan old new 0 s')
      end
  end.

Fixpoint intersperse_after (new s : string) : string :=
  match s with
  | EmptyString => EmptyString
  | String c s' => String c (new +:+ intersperse_after new s')
  end.

(** [s.replace(old, new)]: every non-overlapping occurrence, leftmost
    first; an empty [old] matches before every character and at the end. *)
Definition replace (old new s : string) : string :=
  match old with
  | EmptyString => new +:+ intersperse_after new s
  | String _ _ => replace_scan old new 0 s
  end.

(** The scan of [s.split()]: [tok] is the token being read. *)
Fixpoint split_scan (tok s : string) : list string :=
  match s with
  | EmptyString => match tok with EmptyString => [] | _ => [tok] end
  | String c s' =>
      if is_space c
      then match tok with
           | EmptyString => split_scan EmptyString s'
           | _ => tok :: split_scan EmptyString s'
           end
      else split_scan (tok +:+ String c EmptyString) s'
  end.

(** [s.split()]: the maximal runs of non-blank characters. *)
Definition split (s : string) : list string := split_scan EmptyString s.

(** Vocabulary of the statements below. [fixed f s]: no character of [s]
    is changed by [f]. *)
Definition fixed (f : ascii → ascii) (s : string) : Prop := map_chars f s = s.





(** A string of white space only. *)
Fixpoint all_space (s : string) : bool :=
  match s with
  | EmptyString => true
  | String c s' => is_space c && all_space s'
  end.

End Py.

(** ** pandas cells, rows and frames

    pandas is a library the scripts call; its operations are written here
    as its documentation describes them, row by row. *)

Module Pd.

(** A cell of a frame read from CSV text or derived by the scripts: Python
    [None], the float [nan] that [read_csv] puts in an empty field, a
    [str], a [bool], and, after [to_datetime], [NaT] or a UTC timestamp
    (held as the text [str] prints for it).  Numbers other than [nan] are
    not modelled: the columns read here (names, identifiers, affinity
    codes, dates) hold text. *)
Inductive value : Type :=
  | VNone
  | VNaN
  | VNaT
  | VStr (s : string)
  | VBool (b : bool)
  | VTime (iso : string).

#[global] Instance value_eq_dec : EqDecision value.
Proof. solve_decision. Defined.

#[global] Instance value_inhabited : Inhabited value := populate VNaN.

Definition value_code (v : value) : unit + (unit + (unit + (string + (bool + string)))) :=
  match v with
  | VNone => inl ()
  | VNaN => inr (inl ())
  | VNaT => inr (inr (inl ()))
  | VStr s => inr (inr (inr (inl s)))
  | VBool b => inr (inr (inr (inr (inl b))))
  | VTime t => inr (inr (inr (inr (inr t))))
  end.

Definition value_decode (c : unit + (unit + (unit + (string + (bool + string))))) : value :=
  match c with
  | inl _ => VNone
  | inr (inl _) => VNaN
  | inr (inr (inl _)) => VNaT
  | inr (inr (inr (inl s))) => VStr s
  | inr (inr (inr (inr (inl b)))) => VBool b
  | inr (inr (inr (inr (inr t)))) => VTime t
  end.

#[global] Instance value_countable : Countable value.
Proof. apply (inj_countable' value_code value_decode). by intros []. Defined.

(** [pd.isna(x)] on a scalar *)
Definition isna (v : value) : bool :=
  match v with
  | VNone | VNaN | VNaT => true
  | _ => false
  end.

(** [str(x)] *)
Definition py_str (v : value) : string :=
  match v with
  | VNone => "None"
  | VNaN => "nan"
  | VNaT => "NaT"
  | VStr s => s
  | VBool true => "True"
  | VBool false => "False"
  | VTime iso => iso
  end.

(** Truth value of [x] in an [if]: [None], [False] and the empty string
    are false, every other cell (the float [nan] included) is true. *)
Definition truthy (v : value) : bool :=
  match v with
  | VNone => false
  | VBool b => b
  | VStr s => negb (bool_decide (s = ""))
  | _ => true
  end.

(** A frame: its column labels in order, and its rows.  Every row of a
    frame carries every column; [cell] reads one, a missing entry being
    the float [nan]. *)
Record table : Type := Table {
  columns : list string;
  rows : list (gmap string value)
}.

#[global] Instance table_eq_dec : EqDecision table.
Proof. solve_decision. Defined.

Definition cell (r : gmap string value) (c : string) : value :=
  default VNaN (r !! c).

Definition add_label (c : string) (cols : list string) : list string :=
  if bool_decide (c ∈ cols) then cols else cols ++ [c].

(** [df[c] = <one value per row>], the value of each row computed from
    that row: an existing column is overwritten in place, a new one is
    appended as the last column. *)
Definition assign (c : string) (f : gmap string value → value) (t : table) : table :=
  {| columns := add_label c (columns t);
     rows := (λ r, <[c := f r]> r) <$> rows t |}.

(** The same when computing a row's value can raise: the first row that
    does makes the whole statement raise, and nothing is assigned. *)
Definition assign_try (c : string) (f : gmap string value → option value)
    (t : table) : option table :=
  rs ← mapM (λ r, v ← f r; Some (<[c := v]> r)) (rows t);
  Some {| columns := add_label c (columns t); rows := rs |}.

(** [df[mask]]: a new frame with the rows where the mask holds. *)
Definition select (p : gmap string value → bool) (t : table) : table :=
  {| columns := columns t; rows := List.filter p (rows t) |}.

(** [Series.dropna()] *)
Definition dropna (s : list value) : list value :=
  List.filter (λ v, negb (isna v)) s.

(** [Series.unique()]: first occurrences, in order of appearance. *)
Fixpoint unique (s : list value) : list value :=
  match s with
  | [] => []
  | v :: s' => v :: List.filter (λ w, negb (bool_decide (w = v))) (unique s')
  end.

(** [Series.isin(vals)] on one cell; the lists the scripts pass hold no
    null. *)
Definition isin (vals : list value) (v : value) : bool :=
  bool_decide (v ∈ vals).

(** [Series.fillna("")], [Series.str.strip()] and [Series.str.lower()] on
    one cell: the string methods give [nan] on a cell that is not a
    string. *)
Definition fillna_empty (v : value) : value :=
  if isna v then VStr "" else v.

Definition str_strip (v : value) : value :=
  match v with
  | VStr s => VStr (Py.strip s)
  | _ => VNaN
  end.

Definition str_lower (v : value) : value :=
  match v with
  | VStr s => VStr (Py.lower s)
  | _ => VNaN
  end.

(** [pd.to_datetime(col, errors="coerce", utc=True)] on one cell, over
    the parser [parse] of the text of an instant. *)
Definition to_datetime_coerce (parse : string → option string) (v : value) : value :=
  match v with
  | VStr s => match parse s with Some t => VTime t | None => VNaT end
  | VTime t => VTime t
  | _ => VNaT
  end.

(** [next((k for k in candidates if k in cols), None)], also the
    [for col in candidates: if col in cols: ...; break] loop. *)
Definition first_present (candidates cols : list string) : option string :=
  List.find (λ k, bool_decide (k ∈ cols)) candidates.

(** Every row of the frame has a cell in every column of the frame. *)
Definition well_formed (t : table) : Prop :=
  Forall (λ r : gmap string value, ∀ c, c ∈ columns t → is_Some (r !! c)) (rows t).

End Pd.

(** ** One run of a Streamlit script

    The frames a script holds are Python objects: a variable is a
    reference into the store, [df[c] = ...] writes through the reference,
    and [.copy()] or [df[mask]] makes a new object.  A run ends normally,
    is halted by [st.stop()] after a message was shown, or dies on an
    exception nothing catches; the store is kept in each case. *)

Module Run.
Import Pd.

Inductive outcome (A : Type) : Type :=
  | Done (a : A) (h : list table)
  | Stopped (msg : string) (h : list table)
  | Raised (exn : string) (h : list table).
Arguments Done {A} a h.
Arguments Stopped {A} msg h.
Arguments Raised {A} exn h.

Definition run (A : Type) : Type := list table → outcome A.

#[global] Instance run_ret : MRet run := λ A a h, Done a h.

#[global] Instance run_bind : MBind run := λ A B k m h,
  match m h with
  | Done a h' => k a h'
  | Stopped msg h' => Stopped msg h'
  | Raised exn h' => Raised exn h'
  end.

(** [st.error(msg); st.stop()] (also after [st.warning], [st.info]) *)
Definition stop {A} (msg : string) : run A := λ h, Stopped msg h.

Definition raise {A} (exn : string) : run A := λ h, Raised exn h.

(** Read the object a variable refers to. *)
Definition deref (l : nat) : run table := λ h,
  match h !! l with
  | Some t => Done t h
  | None => Raised "NameError" h
  end.

(** Mutate the object behind a reference. *)
Definition modify (l : nat) (f : table → table) : run unit := λ h,
  match h !! l with
  | Some t => Done () (<[l := f t]> h)
  | None => Raised "NameError" h
  end.

(** Mutate it by a statement that can raise [KeyError]. *)
Definition modify_try (l : nat) (f : table → option table) : run unit := λ h,
  match h !! l with
  | Some t =>
      match f t with
      | Some t' => Done () (<[l := t']> h)
      | None => Raised "KeyError" h
      end
  | None => Raised "NameError" h
  end.

(** A new object. *)
Definition alloc (t : table) : run nat := λ h, Done (length h) (h ++ [t]).

(** [df[c]] for a label that must exist *)
Definition require_column (c : string) (t : table) : run unit :=
  if bool_decide (c ∈ columns t) then mret () else raise "KeyError".

(** [ensures m h Q E]: run from the store [h], [m] either ends normally
    with a value and a store that satisfy [Q], or is halted or raises
    with a store that satisfies [E]. *)
Definition ensures {A} (m : run A) (h : list table)
    (Q : A → list table → Prop) (E : list table → Prop) : Prop :=
  match m h with
  | Done a h' => Q a h'
  | Stopped _ h' => E h'
  | Raised _ h' => E h'
  end.

(** [extends h h']: every object of [h] is unchanged in [h'], which may
    hold new ones.  [only_at l h h']: the stores differ at most in the
    object [l]. *)
Definition extends (h h' : list table) : Prop :=
  length h ≤ length h' ∧ ∀ l, l < length h → h' !! l = h !! l.

Definition only_at (l : nat) (h h' : list table) : Prop :=
  length h' = length h ∧ ∀ l', l' ≠ l → h' !! l' = h !! l'.

(** What a function that builds one frame gives back: the frame, a halt
    by [st.error(msg); st.stop()], or an exception it does not catch. *)
Inductive load_result : Type :=
  | Loaded (t : table)
  | Halted (msg : string)
  | Uncaught (exn : string).

End Run.

(** ** app3.py *)

Module App3.
Import Pd Run.

Inductive read_result : Type :=
  | ReadOk (t : table)
  | UnicodeDecodeError
  | OtherError (e : string).

(** [load_csv_from_github(url)], over the outcome [read_csv url enc] of
    [pd.read_csv(url, encoding=enc)].  The first component lists the
    encodings tried, in order.  An exception raised inside the
    [except UnicodeDecodeError] handler is not caught by the
    [except Exception] clause next to it. *)
Definition load_csv_from_github (read_csv : string → string → read_result)
    (url : string) : list string * load_result :=
  match read_csv url "latin1" with
  | ReadOk t => (["latin1"], Loaded t)
  | UnicodeDecodeError =>
      match read_csv url "ISO-8859-1" with
      | ReadOk t => (["latin1"; "ISO-8859-1"], Loaded t)
      | UnicodeDecodeError => (["latin1"; "ISO-8859-1"], Uncaught "UnicodeDecodeError")
      | OtherError e => (["latin1"; "ISO-8859-1"], Uncaught e)
      end
  | OtherError e => (["latin1"], Halted ("❌ Error loading " +:+ url +:+ ": " +:+ e))
  end.

Definition date_candidates : list string :=
  ["Activity Date"; "Activity_DateOnly"; "Date"].

Definition possible_keys : list string :=
  ["party_number"; "Party_Number"; "party_id"; "Party_ID"].

Definition contact_key (cols : list string) : option string :=
  first_present possible_keys cols.

Definition normalize_id (x : value) : value :=
  if isna x then VNone
  else VStr (Py.replace "CIT-" "" (Py.replace "H-" "" (Py.replace "H-CIT-" ""
              (Py.upper (Py.strip (py_str x)))))).

(** The mask of [named]: a first name that is present and not blank. *)
Definition named_mask (r : gmap string value) : bool :=
  negb (isna (cell r "First Name")) &&
  negb (bool_decide (str_strip (cell r "First Name") = VStr "")).

Definition clean_name (v : value) : value :=
  str_lower (str_strip (fillna_empty v)).

(** [engaged_names] / [engaged_pairs]: the set of the zipped cleaned
    first and last names of [named]. *)
Definition engaged_names (named : table) : gset (value * value) :=
  list_to_set ((λ r, (clean_name (cell r "First Name"), clean_name (cell r "Last Name")))
                 <$> rows named).

Definition first_last_in (engaged : gset (value * value)) (parts : list string) : bool :=
  match parts with
  | p0 :: _ :: _ =>
      bool_decide ((VStr (Py.lower p0), VStr (Py.lower (default "" (last parts)))) ∈ engaged)
  | _ => false
  end.

Definition has_engaged_match (engaged : gset (value * value)) (row : gmap string value) : bool :=
  let parts := Py.split (Py.strip (py_str (default (VStr "") (row !! "party_unique_name")))) in
  first_last_in engaged parts.

Definition check_engaged (engaged : gset (value * value)) (name : value) : bool :=
  match name with
  | VStr s => first_last_in engaged (Py.split (Py.strip s))
  | _ => false
  end.

(** [None] is the [KeyError] of a missing label. *)
Definition get_status_color (row : gmap string value) : option string :=
  code ← row !! "sales_affinity_code";
  if negb (bool_decide (Py.strip (py_str code) = "")) then Some "purple"
  else
    engaged ← row !! "is_engaged";
    if truthy engaged then Some "yellow" else Some "red".

(** The variables of the script that refer to the loaded frames, and the
    account picked in the sidebar.  The frames are taken as lines 41-73
    leave them: [load_data_auto], which line 64 calls, is defined nowhere
    in the repository. *)
Record env : Type := Env {
  df : nat;
  db_df : nat;
  contacts_df : nat;
  account_choice : string
}.

Definition is_account (e : env) (r : gmap string value) : bool :=
  bool_decide (cell r "Account Name" = VStr (account_choice e)).

(** The label of a named row in the timeline (lines 119-123). *)
Definition name_and_role (x : gmap string value) : option value :=
  first ← x !! "First Name";
  last ← x !! "Last Name";
  role ← x !! "Buying Role";
  if negb (isna role) && negb (bool_decide (Py.strip (py_str role) = ""))
  then Some (VStr (py_str first +:+ " " +:+ py_str last +:+ " - " +:+ py_str role))
  else Some (VStr (py_str first +:+ " " +:+ py_str last)).

(** Lines 80-123: the rows of the chosen account, their date axis, and
    the named rows with their label.  Returns the references
    [account_data] and [named]. *)
Definition account_section (parse : string → option string) (e : env) : run (nat * nat) :=
  d ← deref (df e);
  if negb (bool_decide ("Account Name" ∈ columns d))
  then stop "No 'Account Name' column found in dataset."
  else
    account_data ← alloc (select (is_account e) d);
    a ← deref account_data;
    if bool_decide (rows a = [])
    then stop "No data available for this account."
    else
      match first_present date_candidates (columns a) with
      | Some col =>
          modify account_data
            (assign "__date_col__" (λ r, to_datetime_coerce parse (cell r col)))
      | None => mret ()
      end;;
      a ← deref account_data;
      require_column "First Name" a;;
      named ← alloc (select named_mask a);
      n ← deref named;
      (if bool_decide (rows n = []) then mret ()
       else modify_try named (assign_try "Name + Role" name_and_role));;
      mret (account_data, named).

(** Lines 156-179: the firmographic rows of the account, a new frame
    that is only displayed. *)
Definition firmographics_section (e : env) (account_data : nat) : run unit :=
  a ← deref account_data;
  db ← deref (db_df e);
  if bool_decide ("CustomerId_NAR" ∈ columns a) && bool_decide ("CustomerId_NAR" ∈ columns db)
  then
    let ids := unique ((λ r, cell r "CustomerId_NAR") <$> rows a) in
    _ ← alloc (select (λ r, isin ids (cell r "CustomerId_NAR")) db);
    mret ()
  else mret ().

(** Line 203: [contacts_df["party_number_clean"] = ...] *)
Definition with_party_number_clean (key : string) (t : table) : table :=
  assign "party_number_clean" (λ r, normalize_id (cell r key)) t.

Definition normalize_contacts (e : env) (key : string) : run unit :=
  modify (contacts_df e) (with_party_number_clean key).

(** Line 204: [df["CustomerId_NAR_clean"] = ...] *)
Definition with_customer_id_clean (t : table) : table :=
  assign "CustomerId_NAR_clean" (λ r, normalize_id (cell r "CustomerId_NAR")) t.

Definition normalize_accounts (e : env) : run unit :=
  d ← deref (df e);
  require_column "CustomerId_NAR" d;;
  modify (df e) with_customer_id_clean.

(** Lines 206-210 *)
Definition matching_ids (e : env) : run (list value) :=
  d ← deref (df e);
  require_column "Account Name" d;;
  mret (unique (dropna ((λ r, cell r "CustomerId_NAR_clean") <$> rows (select (is_account e) d)))).

(** Lines 215-217 *)
Definition account_contacts (e : env) (ids : list value) : run nat :=
  c ← deref (contacts_df e);
  alloc (select (λ r, isin ids (cell r "party_number_clean")) c).

(** Lines 222-248, on the frame [account_contacts] refers to *)
Definition classify (named contacts : nat) : run unit :=
  n ← deref named;
  require_column "First Name" n;;
  require_column "Last Name" n;;
  modify contacts (assign "is_engaged" (λ r, VBool (has_engaged_match (engaged_names n) r)));;
  c ← deref contacts;
  (if bool_decide ("sales_affinity_code" ∈ columns c) then mret ()
   else modify contacts (assign "sales_affinity_code" (λ _, VStr "")));;
  modify_try contacts (assign_try "status_color" (λ r, VStr <$> get_status_color r)).

(** Lines 184-248 *)
Definition contacts_section (e : env) (named : nat) : run nat :=
  c ← deref (contacts_df e);
  match contact_key (columns c) with
  | None => stop "❌ Could not find any of these join keys in contacts dataset: ['party_number', 'Party_Number', 'party_id', 'Party_ID']"
  | Some key =>
      normalize_contacts e key;;
      normalize_accounts e;;
      ids ← matching_ids e;
      contacts ← account_contacts e ids;
      classify named contacts;;
      mret contacts
  end.

(** The script from the account filter on. *)
Definition script (parse : string → option string) (e : env) : run nat :=
  '(account_data, named) ← account_section parse e;
  firmographics_section e account_data;;
  contacts_section e named.

(** Vocabulary of the statements below.  [loaded_as e h0 h ta tc]: the
    store [h] extends [h0]; in it the activity frame is [ta] and the
    contacts frame is [tc]; every other object of [h0] is as it was. *)
Definition loaded_as (e : env) (h0 h : list table) (ta tc : table) : Prop :=
  length h0 ≤ length h ∧
  h !! df e = Some ta ∧
  h !! contacts_df e = Some tc ∧
  ∀ l, l < length h0 → l ≠ df e → l ≠ contacts_df e → h !! l = h0 !! l.

(** The loaded frames are as loaded, or with their normalised-key column
    assigned. *)
Definition at_most_normalized (e : env) (activity contacts : table)
    (h0 h : list table) : Prop :=
  ∃ ta tc, loaded_as e h0 h ta tc ∧
    (ta = activity ∨ ta = with_customer_id_clean activity) ∧
    (tc = contacts ∨
     ∃ key, contact_key (columns contacts) = Some key ∧
            tc = with_party_number_clean key contacts).

(** [t'] agrees with [t] except perhaps in the column [c]: same number of
    rows, and in each row every other cell is the same. *)
Definition same_but (c : string) (t t' : table) : Prop :=
  Forall2 (λ r r', ∀ c', c' ≠ c → r' !! c' = r !! c') (rows t) (rows t') ∧
  (∀ c', c' ∈ columns t' ↔ c' ∈ columns t ∨ c' = c).


(** Lines 256-297: the contacts to show.  [color_filter] is the colours
    ticked in the sidebar and [search_input] the text typed in the search
    box; [re_search pattern text] is the regular-expression search that
    [str.contains] performs. *)
Definition color_mask (color_filter : list string) (r : gmap string value) : bool :=
  isin (VStr <$> color_filter) (cell r "status_color").

Definition search_mask (re_search : string → string → bool) (query : string)
    (r : gmap string value) : bool :=
  re_search query (Py.lower (py_str (cell r "party_unique_name"))).

Definition display_section (re_search : string → string → bool) (e : env)
    (color_filter : list string) (search_input : string)
    (named contacts : nat) : run nat :=
  let search_query := Py.lower (Py.strip search_input) in
  c ← deref contacts;
  require_column "status_color" c;;
  filtered ← alloc (select (color_mask color_filter) c);
  f ← deref filtered;
  filtered ←
    (if negb (bool_decide (search_query = "")) &&
        bool_decide ("party_unique_name" ∈ columns f)
     then alloc (select (search_mask re_search search_query) f)
     else mret filtered);
  f ← deref filtered;
  if bool_decide (rows f = [])
  then stop ("No contacts found for " +:+ account_choice e +:+ ".")
  else
    n ← deref named;
    require_column "First Name" n;;
    require_column "Last Name" n;;
    require_column "party_unique_name" f;;
    modify filtered
      (assign "is_engaged"
         (λ r, VBool (check_engaged (engaged_names n) (cell r "party_unique_name"))));;
    mret filtered.

(** Lines 80-93: the account select box.  [account_choice e] is what the
    box returns: the placeholder entry as long as no account is picked. *)
Definition placeholder : string := "-- Select an account --".

Definition account_dropdown (e : env) : run unit :=
  d ← deref (df e);
  if negb (bool_decide ("Account Name" ∈ columns d))
  then stop "No 'Account Name' column found in dataset."
  else if bool_decide (account_choice e = placeholder)
  then stop "Please select an account to view its data."
  else mret ().


End App3.

(** ** app.py *)

Module App.
Import Pd Run.

(** [load_data(path)], from the frame [pd.read_csv(path)] returned *)
Definition load_data (parse : string → option string) (df : table) : load_result :=
  match first_present App3.date_candidates (columns df) with
  | Some date_col =>
      let df := assign date_col (λ r, to_datetime_coerce parse (cell r date_col)) df in
      Loaded (assign "__date_col__" (λ r, cell r date_col) df)
  | None =>
      Halted "No date column found (expected one of: Activity Date, Activity_DateOnly, Date)."
  end.

(** The label a column of the right frame gets in the merged frame, with
    [suffixes=("", suffix)]. *)
Definition right_label (suffix : string) (left_cols : list string) (c : string) : string :=
  if bool_decide (c ∈ left_cols) then c +:+ suffix else c.

Definition right_labels (key suffix : string) (left right : table) : list string :=
  right_label suffix (columns left)
    <$> List.filter (λ c, negb (bool_decide (c = key))) (columns right).

Definition right_part (key suffix : string) (left right : table)
    (r : gmap string value) : gmap string value :=
  list_to_map ((λ c, (right_label suffix (columns left) c, cell r c))
                 <$> List.filter (λ c, negb (bool_decide (c = key))) (columns right)).

Definition null_part (key suffix : string) (left right : table) : gmap string value :=
  list_to_map ((λ c, (c, VNaN)) <$> right_labels key suffix left right).

(** The rows of [right] that carry the key of the left row [l]; a null
    key matches a null key. *)
Definition matches (key : string) (right : table) (l : gmap string value)
    : list (gmap string value) :=
  List.filter (λ r, bool_decide (cell r key = cell l key)) (rows right).

Definition joined_rows (key suffix : string) (left right : table)
    (l : gmap string value) : list (gmap string value) :=
  match matches key right l with
  | [] => [l ∪ null_part key suffix left right]
  | ms => (λ r, l ∪ right_part key suffix left right r) <$> ms
  end.

(** [pd.merge(left, right, on=key, how="left", suffixes=("", suffix))]:
    the rows of [left] in order, each once per matching row of [right]
    in the order of [right], or once with nulls when none matches. *)
Definition merge_left (key suffix : string) (left right : table) : table :=
  {| columns := columns left ++ right_labels key suffix left right;
     rows := concat (joined_rows key suffix left right <$> rows left) |}.

(** Lines 72-76 *)
Definition merged (df db_df : table) : load_result :=
  if bool_decide ("CustomerId_NAR" ∈ columns df) && bool_decide ("CustomerId_NAR" ∈ columns db_df)
  then Loaded (merge_left "CustomerId_NAR" "_DB" df db_df)
  else Halted "Could not find matching 'CustomerId_NAR' column in both datasets.".

(** Lines 99-107: the sidebar filters on the merged frame.  The lists are
    the ticked activity types and accounts, [range] the two ends of the
    date range as UTC timestamps, and [time_le] the order of timestamps.
    [None] is the [KeyError] of a missing column. *)
Definition in_range (time_le : string → string → bool) (range : string * string)
    (v : value) : bool :=
  match v with
  | VTime t => time_le range.1 t && time_le t range.2
  | _ => false
  end.

Definition filter_types (selected_types : list string) (t : table) : option table :=
  match selected_types with
  | [] => Some t
  | _ :: _ =>
      if bool_decide ("Type" ∈ columns t)
      then Some (select (λ r, isin (VStr <$> selected_types) (cell r "Type")) t)
      else None
  end.

Definition filter_accounts (selected_accounts : list string) (t : table) : option table :=
  match selected_accounts with
  | [] => Some t
  | _ :: _ =>
      if bool_decide ("Account Name" ∈ columns t)
      then Some (select (λ r, isin (VStr <$> selected_accounts) (cell r "Account Name")) t)
      else None
  end.

Definition filter_dates (time_le : string → string → bool)
    (range : option (string * string)) (t : table) : option table :=
  match range with
  | None => Some t
  | Some se =>
      if bool_decide ("__date_col__" ∈ columns t)
      then Some (select (λ r, in_range time_le se (cell r "__date_col__")) t)
      else None
  end.

Definition filtered (time_le : string → string → bool)
    (selected_types selected_accounts : list string)
    (range : option (string * string)) (merged : table) : option table :=
  t ← filter_types selected_types merged;
  t ← filter_accounts selected_accounts t;
  filter_dates time_le range t.

End App.

(** ** Sample data: the scenario of two activity rows and of contacts
    with and without an affinity code *)

Module Sample.
Import Pd.

Definition activity : table :=
  Table ["Account Name"; "CustomerId_NAR"; "First Name"; "Last Name"; "Buying Role";
         "Type"; "Details"; "Date"]
    [ list_to_map [("Account Name", VStr "Acme"); ("CustomerId_NAR", VStr "H-CIT-1234");
                   ("First Name", VStr "Jane"); ("Last Name", VStr "Doe");
                   ("Buying Role", VStr "Champion"); ("Type", VStr "Webinar");
                   ("Details", VNaN); ("Date", VStr "2024-01-05")];
      list_to_map [("Account Name", VStr "Acme"); ("CustomerId_NAR", VStr "H-CIT-1234");
                   ("First Name", VNaN); ("Last Name", VNaN);
                   ("Buying Role", VNaN); ("Type", VStr "Web visit");
                   ("Details", VNaN); ("Date", VStr "2024-01-10")] ].

Definition firmographics : table :=
  Table ["CustomerId_NAR"; "Technographics"]
    [ list_to_map [("CustomerId_NAR", VStr "H-CIT-1234"); ("Technographics", VStr "ADC")];
      list_to_map [("CustomerId_NAR", VStr "H-CIT-1234"); ("Technographics", VStr "WAF")];
      list_to_map [("CustomerId_NAR", VStr "H-CIT-7"); ("Technographics", VStr "DNS")] ].

Definition contacts : table :=
  Table ["party_number"; "party_unique_name"; "sales_affinity_code"]
    [ list_to_map [("party_number", VStr "cit-1234"); ("party_unique_name", VStr "Jane Doe");
                   ("sales_affinity_code", VStr "")];
      list_to_map [("party_number", VStr "1234"); ("party_unique_name", VStr "John Smith");
                   ("sales_affinity_code", VStr "X")];
      list_to_map [("party_number", VStr "9999"); ("party_unique_name", VStr "Ann Other");
                   ("sales_affinity_code", VNaN)] ].

Definition store : list table := [activity; firmographics; contacts].

Definition e : App3.env := App3.Env 0 1 2 "Acme".

(** An activity frame without any of the date columns: one anonymous
    activity of the account. *)
Definition undated : table :=
  Table ["Account Name"; "CustomerId_NAR"; "First Name"; "Last Name"; "Buying Role";
         "Type"; "Details"]
    [ list_to_map [("Account Name", VStr "Acme"); ("CustomerId_NAR", VStr "H-CIT-1234");
                   ("First Name", VNaN); ("Last Name", VNaN);
                   ("Buying Role", VNaN); ("Type", VStr "Web visit");
                   ("Details", VNaN)] ].

(** A source every encoding can read, with a different text under UTF-8. *)
Definition as_latin1 : table :=
  Table ["name"] [ list_to_map [("name", VStr "JosÃ©")] ].

Definition as_utf8 : table :=
  Table ["name"] [ list_to_map [("name", VStr "Jose")] ].

Definition read_csv (url enc : string) : App3.read_result :=
  if bool_decide (enc = "utf-8") then App3.ReadOk as_utf8 else App3.ReadOk as_latin1.

(** A classified contact, and a store that holds it after the activity
    frame. *)
Definition classified : table :=
  Table ["party_unique_name"; "is_engaged"; "status_color"]
    [ list_to_map [("party_unique_name", VStr "Jane Doe"); ("is_engaged", VBool true);
                   ("status_color", VStr "yellow")] ].

Definition classified_store : list table := [activity; classified].

End Sample.

(** * Facts *)

Import Py Pd Run.

#[local] Arguments Py.replace : simpl never.
#[local] Arguments Py.strip : simpl never.
#[local] Arguments Py.upper : simpl never.
#[local] Arguments Py.lower : simpl never.
#[local] Arguments Py.split : simpl never.

(** ** Strings *)

Lemma app_cons (c : ascii) (s t : string) : String c s +:+ t = String c (s +:+ t).
Proof. reflexivity. Qed.

Lemma app_empty_l (s : string) : "" +:+ s = s.
Proof. reflexivity. Qed.

Lemma app_empty_r (s : string) : s +:+ "" = s.
Proof. induction s as [|c s IH]; [done|]. by rewrite app_cons, IH. Qed.






Lemma fixed_cons f c s : fixed f (String c s) ↔ f c = c ∧ fixed f s.
Proof. unfold fixed. simpl. split; [by intros [= ? ?]|by intros [-> ->]]. Qed.


Lemma fixed_lstrip f s : fixed f s → fixed f (lstrip s).
Proof.
  induction s as [|c s IH]; [done|]. simpl. intros H.
  destruct (is_space c); [|done]. apply IH. by apply fixed_cons in H as [_ ?].
Qed.

Lemma fixed_rstrip f s : fixed f s → fixed f (rstrip s).
Proof.
  induction s as [|c s IH]; [done|]. simpl.
  intros [Hc Hs]%fixed_cons. specialize (IH Hs).
  destruct (rstrip s) as [|c' r].
  - destruct (is_space c); [done|]. by apply fixed_cons.
  - by apply fixed_cons.
Qed.






















(** ** [normalize_id] *)










(** ** [split] *)







(** ** Engagement and status of a contact *)






Lemma get_status_color_cases (row : gmap string value) (code : string) (engaged : bool) :
  row !! "sales_affinity_code" = Some (VStr code) →
  row !! "is_engaged" = Some (VBool engaged) →
  App3.get_status_color row =
  Some (if bool_decide (strip code = "") then (if engaged then "yellow" else "red")
        else "purple").
Proof.
  intros Hc He. unfold App3.get_status_color. rewrite Hc. simpl.
  destruct (bool_decide (strip code = "")); simpl; [|done].
  rewrite He. simpl. by destruct engaged.
Qed.

Lemma get_status_color_null (row : gmap string value) (v : value) :
  row !! "sales_affinity_code" = Some v → isna v = true →
  App3.get_status_color row = Some "purple".
Proof.
  intros Hc Hv. unfold App3.get_status_color. rewrite Hc.
  by destruct v.
Qed.

(** C3, at the input where the code leaves the claim: a contact whose
    affinity cell is empty in the CSV file holds the float [nan] there;
    [str] prints it as ["nan"], which is not blank, so the contact is
    coloured purple (affinity) although it has no affinity code and is
    not engaged.  With a string in the cell the precedence is the stated
    one ([get_status_color_cases]). *)
Theorem get_status_color_nan_is_purple :
  App3.get_status_color
    (<["sales_affinity_code" := VNaN]> (<["is_engaged" := VBool false]> ∅))
  = Some "purple".
Proof. by vm_compute. Qed.



(** ** First present candidate *)

Lemma first_present_Some (candidates cols : list string) (k : string) :
  first_present candidates cols = Some k ↔
  ∃ pre post, candidates = pre ++ k :: post ∧ k ∈ cols ∧ Forall (λ k', k' ∉ cols) pre.
Proof.
  unfold first_present. induction candidates as [|c cs IH]; simpl.
  - split; [done|]. intros (pre & post & H & _). by destruct pre.
  - case_bool_decide as Hc.
    + split.
      * intros [= ->]. by exists [], cs.
      * intros ([|c' pre] & post & Heq & Hk & Hpre).
        -- by injection Heq as -> _.
        -- injection Heq as -> _. by apply Forall_cons in Hpre as [? _].
    + rewrite IH. split.
      * intros (pre & post & -> & Hk & Hpre). exists (c :: pre), post.
        split; [done|]. split; [done|]. by constructor.
      * intros ([|c' pre] & post & Heq & Hk & Hpre).
        -- injection Heq as -> _. done.
        -- injection Heq as -> ->. apply Forall_cons in Hpre as [_ ?].
           by exists pre, post.
Qed.

Lemma first_present_None (candidates cols : list string) :
  first_present candidates cols = None ↔ Forall (λ k, k ∉ cols) candidates.
Proof.
  unfold first_present. induction candidates as [|c cs IH]; simpl.
  - split; [constructor|done].
  - case_bool_decide as Hc.
    + split; [done|]. by intros [? _]%Forall_cons.
    + rewrite IH. split; [by constructor|]. by intros [_ ?]%Forall_cons.
Qed.

(** ** Rules for [ensures] *)

Lemma ensures_ret {A} (a : A) h (Q : A → list table → Prop) E :
  Q a h → ensures (mret a) h Q E.
Proof. done. Qed.

Lemma ensures_bind {A B} (m : run A) (k : A → run B) h (Q : B → list table → Prop) E :
  ensures m h (λ a h', ensures (k a) h' Q E) E → ensures (m ≫= k) h Q E.
Proof.
  unfold ensures, mbind, run_bind. by destruct (m h).
Qed.

Lemma ensures_stop {A} msg h (Q : A → list table → Prop) (E : list table → Prop) :
  E h → ensures (stop msg) h Q E.
Proof. done. Qed.

Lemma ensures_raise {A} exn h (Q : A → list table → Prop) (E : list table → Prop) :
  E h → ensures (raise exn) h Q E.
Proof. done. Qed.

Lemma ensures_deref l h (Q : table → list table → Prop) (E : list table → Prop) :
  (∀ t, h !! l = Some t → Q t h) → E h → ensures (deref l) h Q E.
Proof. intros HQ HE. unfold ensures, deref. destruct (h !! l); auto. Qed.

Lemma ensures_modify l f h (Q : unit → list table → Prop) (E : list table → Prop) :
  (∀ t, h !! l = Some t → Q () (<[l := f t]> h)) → E h → ensures (modify l f) h Q E.
Proof. intros HQ HE. unfold ensures, modify. destruct (h !! l); auto. Qed.

Lemma ensures_modify_try l f h (Q : unit → list table → Prop) (E : list table → Prop) :
  (∀ t t', h !! l = Some t → f t = Some t' → Q () (<[l := t']> h)) → E h →
  ensures (modify_try l f) h Q E.
Proof.
  intros HQ HE. unfold ensures, modify_try.
  destruct (h !! l) as [t|]; [|done]. destruct (f t) eqn:Hf; eauto.
Qed.

Lemma ensures_alloc t h (Q : nat → list table → Prop) (E : list table → Prop) :
  Q (length h) (h ++ [t]) → ensures (alloc t) h Q E.
Proof. done. Qed.

Lemma ensures_require_column c t h (Q : unit → list table → Prop) (E : list table → Prop) :
  (c ∈ columns t → Q () h) → E h → ensures (require_column c t) h Q E.
Proof.
  intros HQ HE. unfold require_column.
  case_bool_decide; [apply ensures_ret; auto|by apply ensures_raise].
Qed.

(** ** The contacts semi-join *)

Lemma filter_fmap_comm {A B} (f : A → B) (p : B → bool) (l : list A) :
  List.filter p (f <$> l) = f <$> List.filter (λ x, p (f x)) l.
Proof.
  induction l as [|x l IH]; [done|]. cbn [fmap list_fmap List.filter].
  change (list_fmap A B f l) with (f <$> l). rewrite IH. by destruct (p (f x)).
Qed.

Lemma cell_insert (r : gmap string value) (c : string) (v : value) :
  cell (<[c := v]> r) c = v.
Proof. unfold cell. by rewrite lookup_insert_eq. Qed.

Lemma cell_insert_ne (r : gmap string value) (c c' : string) (v : value) :
  c ≠ c' → cell (<[c := v]> r) c' = cell r c'.
Proof. intros. unfold cell. by rewrite lookup_insert_ne. Qed.

(** C5.  From any store in which [contacts_df] refers to the frame [c],
    and for any list [ids] of account keys, lines 203 and 215-217 end
    normally; [account_contacts] is a new frame whose rows are, in order
    and with multiplicity, exactly the rows of [c] whose normalised key
    is in [ids], each with the one cell ["party_number_clean"] set to
    that normalised key and every other cell as in [c]; its columns are
    those of [c] and the derived one. *)
Theorem contacts_semi_join (e : App3.env) (h : list table) (c : table)
    (key : string) (ids : list value) :
  h !! App3.contacts_df e = Some c →
  ∃ out : table,
    (App3.normalize_contacts e key ;; App3.account_contacts e ids) h
    = Done (length h) (<[App3.contacts_df e := App3.with_party_number_clean key c]> h ++ [out]) ∧
    rows out =
      (λ r, <["party_number_clean" := App3.normalize_id (cell r key)]> r)
        <$> List.filter (λ r, bool_decide (App3.normalize_id (cell r key) ∈ ids)) (rows c) ∧
    (∀ c', c' ∈ columns out ↔ c' ∈ columns c ∨ c' = "party_number_clean") ∧
    Forall (λ r', ∃ r, r ∈ rows c ∧ App3.normalize_id (cell r key) ∈ ids ∧
                      r' !! "party_number_clean" = Some (App3.normalize_id (cell r key)) ∧
                      ∀ c', c' ≠ "party_number_clean" → r' !! c' = r !! c') (rows out) ∧
    (∀ r, r ∈ rows c → App3.normalize_id (cell r key) ∈ ids →
          <["party_number_clean" := App3.normalize_id (cell r key)]> r ∈ rows out).
Proof.
  intros Hc.
  pose proof (lookup_lt_Some _ _ _ Hc) as Hlt.
  set (c1 := App3.with_party_number_clean key c).
  set (keep := λ r : gmap string value, isin ids (cell r "party_number_clean")).
  exists (select keep c1). split; [|split; [|split; [|split]]].
  - unfold App3.normalize_contacts, App3.account_contacts, mbind, run_bind, modify.
    rewrite Hc. unfold deref. rewrite list_lookup_insert_eq by done.
    unfold alloc. by rewrite length_insert.
  - unfold select, c1, App3.with_party_number_clean, assign. cbn [rows].
    rewrite filter_fmap_comm. f_equal. apply filter_ext. intros r.
    unfold keep. by rewrite cell_insert.
  - intros c'. unfold select, c1, App3.with_party_number_clean, assign, add_label.
    cbn [columns]. case_bool_decide as Hin.
    + split; [auto|]. by intros [?| ->].
    + rewrite elem_of_app, list_elem_of_singleton. done.
  - unfold select, c1, App3.with_party_number_clean, assign. cbn [rows].
    rewrite filter_fmap_comm, Forall_fmap. apply Forall_forall.
    intros r [Hr Hk]%list_elem_of_In%filter_In. exists r.
    unfold keep in Hk. rewrite cell_insert in Hk.
    apply bool_decide_eq_true in Hk. rewrite list_elem_of_In.
    split; [done|]. split; [done|]. split; [by rewrite lookup_insert_eq|].
    intros c' Hne. by rewrite lookup_insert_ne.
  - intros r Hr Hk. unfold select, c1, App3.with_party_number_clean, assign.
    cbn [rows]. rewrite filter_fmap_comm. apply list_elem_of_fmap. exists r.
    split; [done|]. apply list_elem_of_In, filter_In. rewrite <- list_elem_of_In.
    split; [done|]. unfold keep. rewrite cell_insert. by apply bool_decide_eq_true.
Qed.

(** C9.  The contact key is the first of [party_number], [Party_Number],
    [party_id], [Party_ID] that is a column of the contacts frame.  When
    none is, the contacts section is halted by [st.stop()] after the
    error message, with the store exactly as it was: the activity and
    firmographic frames, and everything derived before, are untouched. *)
Theorem contact_key_selection :
  App3.possible_keys = ["party_number"; "Party_Number"; "party_id"; "Party_ID"] ∧
  (∀ (cols : list string) (k : string),
     App3.contact_key cols = Some k ↔
     ∃ pre post, App3.possible_keys = pre ++ k :: post ∧ k ∈ cols ∧
                 Forall (λ k', k' ∉ cols) pre) ∧
  (∀ cols : list string,
     App3.contact_key cols = None ↔ Forall (λ k, k ∉ cols) App3.possible_keys) ∧
  (∀ (e : App3.env) (named : nat) (h : list table) (c : table),
     h !! App3.contacts_df e = Some c →
     App3.contact_key (columns c) = None →
     ∃ msg, App3.contacts_section e named h = Stopped msg h).
Proof.
  split; [done|]. split; [|split].
  - intros cols k. apply first_present_Some.
  - intros cols. apply first_present_None.
  - intros e named h c Hc Hk. eexists.
    unfold App3.contacts_section, mbind, run_bind, deref. rewrite Hc, Hk. done.
Qed.

Lemma contacts_semi_join_witness :
  ∃ out : table,
    (App3.normalize_contacts Sample.e "party_number" ;;
     App3.account_contacts Sample.e [VStr "1234"]) Sample.store
    = Done 3 (<[2 := App3.with_party_number_clean "party_number" Sample.contacts]>
                Sample.store ++ [out]) ∧
    length (rows out) = 2.
Proof.
  destruct (contacts_semi_join Sample.e Sample.store Sample.contacts
              "party_number" [VStr "1234"]) as (out & Hrun & Hrows & _).
  { reflexivity. }
  exists out. split; [exact Hrun|]. rewrite Hrows. reflexivity.
Defined.

Lemma contact_key_selection_witness :
  App3.contact_key ["job_title"; "party_id"; "Party_Number"] = Some "Party_Number" ∧
  ∃ msg,
    App3.contacts_section (App3.Env 0 1 2 "Acme") 3
      [Table [] []; Table [] []; Table ["party_unique_name"] []]
    = Stopped msg [Table [] []; Table [] []; Table ["party_unique_name"] []].
Proof.
  destruct contact_key_selection as (_ & H1 & _ & H3). split.
  - apply H1. exists ["party_number"], ["party_id"; "Party_ID"].
    split; [reflexivity|]. split; [by apply (bool_decide_unpack _)|].
    repeat constructor. by apply (bool_decide_unpack _).
  - apply (H3 (App3.Env 0 1 2 "Acme") 3 _ (Table ["party_unique_name"] []));
      reflexivity.
Defined.

(** ** Which objects a run writes *)

Lemma ensures_conseq {A} (m : run A) h (Q Q' : A → list table → Prop)
    (E E' : list table → Prop) :
  ensures m h Q E → (∀ a h', Q a h' → Q' a h') → (∀ h', E h' → E' h') →
  ensures m h Q' E'.
Proof. unfold ensures. destruct (m h); auto. Qed.

Ltac step :=
  lazymatch goal with
  | |- ensures (_ ≫= _) _ _ _ => apply ensures_bind
  | |- ensures (mret _) _ _ _ => apply ensures_ret
  | |- ensures (stop _) _ _ _ => apply ensures_stop
  | |- ensures (raise _) _ _ _ => apply ensures_raise
  | |- ensures (deref _) _ _ _ => apply ensures_deref; [intros ? ?|]
  | |- ensures (alloc _) _ _ _ => apply ensures_alloc
  | |- ensures (modify _ _) _ _ _ => apply ensures_modify; [intros ? ?|]
  | |- ensures (modify_try _ _) _ _ _ => apply ensures_modify_try; [intros ? ? ? ?|]
  | |- ensures (require_column _ _) _ _ _ => apply ensures_require_column; [intros ?|]
  | |- ensures (if ?b then _ else _) _ _ _ => destruct b eqn:?
  | |- ensures (match ?x with _ => _ end) _ _ _ => destruct x eqn:?
  end.

Lemma extends_refl h : extends h h.
Proof. by split. Qed.

Lemma extends_trans h1 h2 h3 : extends h1 h2 → extends h2 h3 → extends h1 h3.
Proof.
  intros [L1 H1] [L2 H2]. split; [lia|].
  intros l Hl. rewrite H2 by lia. by apply H1.
Qed.

Lemma extends_alloc h h' t : extends h h' → extends h (h' ++ [t]).
Proof.
  intros [L H]. split; [rewrite length_app; lia|].
  intros l Hl. rewrite lookup_app_l by lia. by apply H.
Qed.

Lemma extends_modify_fresh h h' l t :
  extends h h' → length h ≤ l → extends h (<[l := t]> h').
Proof.
  intros [L H] Hl. split; [by rewrite length_insert|].
  intros l' Hl'. rewrite list_lookup_insert_ne by lia. by apply H.
Qed.

Create HintDb frames.
#[local] Hint Resolve extends_refl extends_alloc extends_modify_fresh : frames.
#[local] Hint Extern 1 (_ ≤ _) =>
  rewrite ?length_insert, ?length_app; cbn [length]; lia : frames.

Lemma only_at_refl l h : only_at l h h.
Proof. by split. Qed.

Lemma only_at_modify l h h' t : only_at l h h' → only_at l h (<[l := t]> h').
Proof.
  intros [L H]. split; [by rewrite length_insert|].
  intros l' Hl'. rewrite list_lookup_insert_ne by done. by apply H.
Qed.

#[local] Hint Resolve only_at_refl only_at_modify : frames.

(** Lines 80-116 write no object that existed before: the account rows
    and the named rows are new frames, and the date column is assigned
    to the new frame. *)
Ltac frames :=
  split_and?; cbn [fst snd];
  rewrite ?length_insert, ?length_app; cbn [length];
  try lia; eauto 8 with frames.

Lemma account_section_extends parse e h :
  ensures (App3.account_section parse e) h
    (λ r h', extends h h' ∧ length h ≤ r.1 ∧ length h ≤ r.2)
    (extends h).
Proof.
  unfold App3.account_section. repeat step; frames.
Qed.

Lemma firmographics_section_extends e a h :
  ensures (App3.firmographics_section e a) h (λ _ h', extends h h') (extends h).
Proof.
  unfold App3.firmographics_section. repeat step; frames.
Qed.

Lemma elem_of_add_label (c c' : string) (cols : list string) :
  c' ∈ add_label c cols ↔ c' ∈ cols ∨ c' = c.
Proof.
  unfold add_label. case_bool_decide as Hin.
  - split; [auto|]. by intros [?| ->].
  - by rewrite elem_of_app, list_elem_of_singleton.
Qed.

Lemma columns_assign_try c f t t' :
  assign_try c f t = Some t' → columns t' = add_label c (columns t).
Proof.
  unfold assign_try. destruct (mapM _ (rows t)); simpl; [|done]. by intros [= <-].
Qed.

Lemma lookup_insert_same (h : list table) (l : nat) (x y t : table) :
  h !! l = Some t → <[l := x]> h !! l = Some y → x = y.
Proof.
  intros Hl%lookup_lt_Some. rewrite list_lookup_insert_eq by done. congruence.
Qed.

(** Lines 222-248 write only the frame [contacts] they are given, and
    leave it with the columns [is_engaged] and [status_color]. *)
Lemma classify_only_at named contacts h :
  ensures (App3.classify named contacts) h
    (λ _ h', only_at contacts h h' ∧
             ∃ t, h' !! contacts = Some t ∧
                  "is_engaged" ∈ columns t ∧ "status_color" ∈ columns t)
    (only_at contacts h).
Proof.
  unfold App3.classify.
  step. apply ensures_deref; [intros n Hn|frames].
  step. apply ensures_require_column; [intros _|frames].
  step. apply ensures_require_column; [intros _|frames].
  step. apply ensures_modify; [intros t0 Ht0|frames].
  assert (contacts < length h) as Hlt by (by eapply lookup_lt_Some).
  step. apply ensures_deref; [intros t1' Ht1|frames].
  rewrite list_lookup_insert_eq in Ht1 by done. injection Ht1 as <-.
  set (t1 := assign "is_engaged" _ t0).
  assert ("is_engaged" ∈ columns t1) as Heng by (apply elem_of_add_label; auto).
  step. destruct (bool_decide ("sales_affinity_code" ∈ columns t1)).
  - step. apply ensures_modify_try; [intros t2 t3 Ht2 Ht3|frames].
    rewrite list_lookup_insert_eq in Ht2 by done. injection Ht2 as <-.
    split; [frames|]. exists t3.
    rewrite list_lookup_insert_eq by (by rewrite length_insert).
    split; [done|]. rewrite (columns_assign_try _ _ _ _ Ht3), !elem_of_add_label.
    auto.
  - apply ensures_modify; [intros t2 Ht2|frames].
    rewrite list_lookup_insert_eq in Ht2 by done. injection Ht2 as <-.
    apply ensures_modify_try; [intros t2 t3 Ht2 Ht3|frames].
    rewrite list_lookup_insert_eq in Ht2 by (by rewrite length_insert).
    injection Ht2 as <-.
    split; [frames|]. exists t3.
    rewrite list_lookup_insert_eq by (by rewrite !length_insert).
    split; [done|]. rewrite (columns_assign_try _ _ _ _ Ht3). cbn [assign columns].
    rewrite !elem_of_add_label. auto.
Qed.

(** ** The loaded frames across a run of the script *)

Lemma loaded_as_extends e h0 h h' ta tc :
  App3.loaded_as e h0 h ta tc → extends h h' → App3.loaded_as e h0 h' ta tc.
Proof.
  intros (L & Hd & Hc & Ho) [L' H'].
  pose proof (lookup_lt_Some _ _ _ Hd). pose proof (lookup_lt_Some _ _ _ Hc).
  split_and!; [lia|by rewrite H'|by rewrite H'|].
  intros l ? ? ?. rewrite H' by lia. by apply Ho.
Qed.

Lemma loaded_as_only_at e h0 h h' l ta tc :
  App3.loaded_as e h0 h ta tc → only_at l h h' →
  l ≠ App3.df e → l ≠ App3.contacts_df e → length h0 ≤ l →
  App3.loaded_as e h0 h' ta tc.
Proof.
  intros (L & Hd & Hc & Ho) [L' H'] ? ? ?.
  split_and!; [lia|by rewrite H'|by rewrite H'|].
  intros l' ? ? ?. rewrite H' by lia. by apply Ho.
Qed.

Lemma loaded_as_modify_contacts e h0 h ta tc t :
  App3.loaded_as e h0 h ta tc → App3.df e ≠ App3.contacts_df e →
  App3.loaded_as e h0 (<[App3.contacts_df e := t]> h) ta t.
Proof.
  intros (L & Hd & Hc & Ho) ?. pose proof (lookup_lt_Some _ _ _ Hc).
  split_and!.
  - by rewrite length_insert.
  - by rewrite list_lookup_insert_ne.
  - by rewrite list_lookup_insert_eq.
  - intros l ? ? ?. rewrite list_lookup_insert_ne by done. by apply Ho.
Qed.

Lemma loaded_as_modify_df e h0 h ta tc t :
  App3.loaded_as e h0 h ta tc → App3.df e ≠ App3.contacts_df e →
  App3.loaded_as e h0 (<[App3.df e := t]> h) t tc.
Proof.
  intros (L & Hd & Hc & Ho) ?. pose proof (lookup_lt_Some _ _ _ Hd).
  split_and!.
  - by rewrite length_insert.
  - by rewrite list_lookup_insert_eq.
  - by rewrite list_lookup_insert_ne.
  - intros l ? ? ?. rewrite list_lookup_insert_ne by done. by apply Ho.
Qed.

Lemma loaded_as_other e h0 h ta tc l t :
  App3.loaded_as e h0 h ta tc → h0 !! l = Some t →
  l ≠ App3.df e → l ≠ App3.contacts_df e → h !! l = Some t.
Proof.
  intros (L & Hd & Hc & Ho) Hl ? ?. rewrite Ho; [done| |done|done].
  by eapply lookup_lt_Some.
Qed.

Lemma assign_same_but c f t : App3.same_but c t (assign c f t).
Proof.
  split.
  - unfold assign. cbn [rows]. apply Forall2_fmap_r, Forall_Forall2_diag, Forall_forall.
    intros r _ c' Hne. by rewrite lookup_insert_ne.
  - intros c'. apply elem_of_add_label.
Qed.

Lemma contacts_section_frames e named h0 h activity contacts :
  App3.df e < length h0 → App3.contacts_df e < length h0 →
  App3.df e ≠ App3.contacts_df e →
  App3.loaded_as e h0 h activity contacts →
  ensures (App3.contacts_section e named) h
    (λ ac h', ∃ key t,
       App3.contact_key (columns contacts) = Some key ∧
       App3.loaded_as e h0 h'
         (App3.with_customer_id_clean activity)
         (App3.with_party_number_clean key contacts) ∧
       length h0 ≤ ac ∧ h' !! ac = Some t ∧
       "is_engaged" ∈ columns t ∧ "status_color" ∈ columns t)
    (App3.at_most_normalized e activity contacts h0).
Proof.
  intros Ld Lc Hne HL. unfold App3.contacts_section.
  assert (App3.at_most_normalized e activity contacts h0 h) as HE
    by (exists activity, contacts; auto).
  step. apply ensures_deref; [intros c Hc|done].
  destruct HL as (L & Hd & Hc' & Ho) eqn:HLeq. clear HLeq.
  assert (c = contacts) as -> by congruence.
  destruct (App3.contact_key (columns contacts)) as [key|] eqn:Hkey;
    [|by apply ensures_stop].
  (* line 203 *)
  step. unfold App3.normalize_contacts.
  apply ensures_modify; [intros c Hc2|done].
  assert (c = contacts) as -> by congruence.
  pose proof (loaded_as_modify_contacts e h0 h activity contacts
                (App3.with_party_number_clean key contacts) HL Hne) as HL1.
  clear HE HL Hd Hc' Ho Hc Hc2 L.
  set (h1 := <[App3.contacts_df e := _]> h) in *.
  assert (App3.at_most_normalized e activity contacts h0 h1) as HE1.
  { exists activity, (App3.with_party_number_clean key contacts).
    split_and!; [done|by left|right; by exists key]. }
  (* line 204 *)
  step. unfold App3.normalize_accounts.
  step. apply ensures_deref; [intros d Hd|done].
  step. apply ensures_require_column; [intros _|done].
  apply ensures_modify; [intros d' Hd'|done].
  assert (d' = activity) as -> by (destruct HL1 as (_ & ? & _); congruence).
  pose proof (loaded_as_modify_df e h0 h1 activity _
                (App3.with_customer_id_clean activity) HL1 Hne) as HL2.
  clear HE1 HL1 Hd Hd'.
  set (h2 := <[App3.df e := _]> h1) in *.
  assert (App3.at_most_normalized e activity contacts h0 h2) as HE2.
  { exists (App3.with_customer_id_clean activity),
      (App3.with_party_number_clean key contacts).
    split_and!; [done|by right|right; by exists key]. }
  (* lines 206-217 *)
  step. unfold App3.matching_ids.
  step. apply ensures_deref; [intros d2 Hd2|done].
  step. apply ensures_require_column; [intros _|done].
  step. step. unfold App3.account_contacts.
  step. apply ensures_deref; [intros c2 Hc2|done].
  apply ensures_alloc.
  set (ac := length h2). set (h3 := h2 ++ _).
  assert (length h0 ≤ ac) as Lac by (destruct HL2; done).
  assert (extends h2 h3) as Hext by (apply extends_alloc, extends_refl).
  pose proof (loaded_as_extends _ _ _ _ _ _ HL2 Hext) as HL3.
  (* lines 222-248 *)
  step. eapply ensures_conseq; [apply classify_only_at| |].
  - intros _ h' (Honly & t & Ht & ? & ?). step.
    exists key, t. split_and!; try done.
    eapply loaded_as_only_at; [done|done|lia..].
  - intros h' Honly.
    exists (App3.with_customer_id_clean activity),
      (App3.with_party_number_clean key contacts).
    split_and!; [|by right|right; by exists key].
    eapply loaded_as_only_at; [done|done|lia..].
Qed.

(** C10 (as amended).  Run the script from a store in which [df],
    [db_df] and [contacts_df] refer to three different frames.  However
    the run ends, the firmographic frame and every other object of the
    store are unchanged, and the activity and contacts frames are either
    unchanged or have had their normalised-key column assigned in place.
    When the run ends normally both have: each of the two loaded frames
    has gained exactly that column, with the same rows in the same order
    and every other cell unchanged, while [is_engaged] and [status_color]
    have been assigned to a frame that did not exist before the run. *)
Theorem loaded_frames_after_script (parse : string → option string) (e : App3.env)
    (h0 : list table) (activity firmographics contacts : table) :
  h0 !! App3.df e = Some activity →
  h0 !! App3.db_df e = Some firmographics →
  h0 !! App3.contacts_df e = Some contacts →
  App3.df e ≠ App3.contacts_df e →
  App3.db_df e ≠ App3.df e →
  App3.db_df e ≠ App3.contacts_df e →
  ensures (App3.script parse e) h0
    (λ ac h, ∃ key t,
       App3.contact_key (columns contacts) = Some key ∧
       App3.loaded_as e h0 h
         (App3.with_customer_id_clean activity)
         (App3.with_party_number_clean key contacts) ∧
       h !! App3.db_df e = Some firmographics ∧
       App3.same_but "CustomerId_NAR_clean" activity (App3.with_customer_id_clean activity) ∧
       App3.same_but "party_number_clean" contacts
         (App3.with_party_number_clean key contacts) ∧
       length h0 ≤ ac ∧ h !! ac = Some t ∧
       "is_engaged" ∈ columns t ∧ "status_color" ∈ columns t)
    (λ h, App3.at_most_normalized e activity contacts h0 h ∧
          h !! App3.db_df e = Some firmographics).
Proof.
  intros Hd Hdb Hc Hne Hne1 Hne2.
  pose proof (lookup_lt_Some _ _ _ Hd) as Ld.
  pose proof (lookup_lt_Some _ _ _ Hc) as Lc.
  assert (App3.loaded_as e h0 h0 activity contacts) as HL0 by (by split_and!).
  assert (∀ h, extends h0 h →
            App3.at_most_normalized e activity contacts h0 h ∧
            h !! App3.db_df e = Some firmographics) as Hstay.
  { intros h Hext. pose proof (loaded_as_extends _ _ _ _ _ _ HL0 Hext) as HL.
    split; [|by eapply loaded_as_other].
    exists activity, contacts. split_and!; [done|by left|by left]. }
  unfold App3.script. step.
  eapply ensures_conseq; [apply account_section_extends| |exact Hstay].
  intros [account_data named] h1 (Hext1 & _ & _). cbn match.
  step. eapply ensures_conseq; [apply firmographics_section_extends| |].
  2: { intros h2 Hext2. apply Hstay. by eapply extends_trans. }
  intros [] h2 Hext2. cbn beta in Hext2.
  assert (extends h0 h2) as Hext by (by eapply extends_trans).
  eapply ensures_conseq;
    [apply (contacts_section_frames e named h0 h2 activity contacts); try done| |].
  - by eapply loaded_as_extends.
  - intros ac h (key & t & Hkey & HL & Lac & Ht & Heng & Hcol).
    exists key, t. split_and!; try done.
    + by eapply loaded_as_other.
    + apply assign_same_but.
    + apply assign_same_but.
  - intros h (ta & tc & HL & Ha & Hb). split; [by exists ta, tc|].
    by eapply loaded_as_other.
Qed.

Lemma loaded_frames_after_script_witness :
  ensures (App3.script (λ s, Some s) Sample.e) Sample.store
    (λ ac h,
       h !! 0 = Some (App3.with_customer_id_clean Sample.activity) ∧
       h !! 1 = Some Sample.firmographics ∧
       h !! 2 = Some (App3.with_party_number_clean "party_number" Sample.contacts) ∧
       3 ≤ ac)
    (λ _, True).
Proof.
  eapply ensures_conseq.
  - apply (loaded_frames_after_script (λ s, Some s) Sample.e Sample.store
             Sample.activity Sample.firmographics Sample.contacts);
      first [reflexivity | discriminate].
  - intros ac h (key & t & Hkey & (_ & Ha & Hc & _) & Hf & _ & _ & Hac & _).
    injection Hkey as <-. split_and!; assumption.
  - intros; exact I.
Defined.

(** C10 as stated fails: on the sample store the run ends normally, and
    afterwards the loaded contacts frame and the loaded activity frame
    both carry a column they did not have when loaded. *)
Lemma loaded_frames_are_mutated :
  ensures (App3.script (λ s, Some s) Sample.e) Sample.store
    (λ _ h, h !! App3.contacts_df Sample.e ≠ Sample.store !! App3.contacts_df Sample.e ∧
            h !! App3.df Sample.e ≠ Sample.store !! App3.df Sample.e)
    (λ _, False).
Proof.
  assert (∀ t t' : table, columns t ≠ columns t' → Some t ≠ Some t') as Hcol
    by (intros t t' Hne [= ->]; done).
  vm_compute. split; apply Hcol; vm_compute; discriminate.
Qed.

(** ** The left merge of app.py *)






(** ** The date axis *)

Lemma to_datetime_coerce_unparsable parse (s : string) :
  parse s = None → to_datetime_coerce parse (VStr s) = VNaT.
Proof. intros H. simpl. by rewrite H. Qed.

Lemma to_datetime_coerce_cases parse (v : value) :
  (∃ t, to_datetime_coerce parse v = VTime t) ∨ to_datetime_coerce parse v = VNaT.
Proof. destruct v; simpl; eauto. destruct (parse s); eauto. Qed.

Lemma date_candidate_not_derived (col : string) :
  col ∈ App3.date_candidates → col ≠ "__date_col__".
Proof.
  unfold App3.date_candidates. rewrite !elem_of_cons, elem_of_nil.
  intros [->|[->|[->|[]]]]; discriminate.
Qed.

(** [load_data] of app.py: the date column is the first candidate
    present; every cell of it is parsed or becomes [NaT], row by row;
    without a candidate the load is halted with a message. *)
Lemma load_data_resolved parse (df : table) (col : string) :
  first_present App3.date_candidates (columns df) = Some col →
  ∃ t, App.load_data parse df = Loaded t ∧
       Forall2 (λ r r',
           r' !! col = Some (to_datetime_coerce parse (cell r col)) ∧
           r' !! "__date_col__" = Some (to_datetime_coerce parse (cell r col)))
         (rows df) (rows t).
Proof.
  intros Hcol. unfold App.load_data. rewrite Hcol. eexists. split; [done|].
  assert (col ≠ "__date_col__") as Hne.
  { apply date_candidate_not_derived.
    apply first_present_Some in Hcol as (pre & post & -> & _).
    rewrite elem_of_app, elem_of_cons. auto. }
  unfold assign. cbn [rows]. rewrite <- list_fmap_compose.
  apply Forall2_fmap_r, Forall_Forall2_diag, Forall_forall. intros r _.
  cbn [compose]. rewrite cell_insert, lookup_insert_eq.
  by rewrite lookup_insert_ne, lookup_insert_eq.
Qed.

Lemma load_data_unresolved parse (df : table) :
  first_present App3.date_candidates (columns df) = None →
  ∃ msg, App.load_data parse df = Halted msg.
Proof. intros H. unfold App.load_data. rewrite H. eauto. Qed.

(** C7, at the input where the code leaves the claim: an activity frame
    with none of [Activity Date], [Activity_DateOnly], [Date] (here with
    one anonymous activity of the account).  The loop of app3.py has no
    [else]: the script runs to its end, nothing is reported, and no
    frame has a [__date_col__] column; the frame of the account is the
    object 3 of the final store.  [load_data] of app.py halts with a
    message on the same frame. *)
Theorem missing_date_column_is_not_reported (parse : string → option string) :
  ∃ ac h t,
    App3.script parse Sample.e
      [Sample.undated; Sample.firmographics; Sample.contacts] = Done ac h ∧
    h !! 3 = Some t ∧
    rows t ≠ [] ∧
    Forall (λ t', "__date_col__" ∉ columns t') h ∧
    first_present App3.date_candidates (columns Sample.undated) = None ∧
    App.load_data parse Sample.undated
    = Halted "No date column found (expected one of: Activity Date, Activity_DateOnly, Date).".
Proof.
  eexists _, _, _. split_and!; [by vm_compute|by vm_compute|by vm_compute|..].
  - repeat constructor; by apply (bool_decide_unpack _).
  - done.
  - done.
Qed.

(** ** Loading *)

(** C8 (as amended).  [load_csv_from_github] first reads with the
    encoding [latin1] and reads again, with [ISO-8859-1], exactly when
    the first read ended in a decoding fault; no other encoding is tried.
    It returns a frame exactly when one of the reads it made succeeded,
    and then the frame of that read; when the first read fails otherwise
    it shows the error and halts the run, with no frame. *)
Theorem load_csv_from_github_attempts
    (read_csv : string → string → App3.read_result) (url : string) :
  let r := App3.load_csv_from_github read_csv url in
  head r.1 = Some "latin1" ∧
  (∀ enc, enc ∈ r.1 → enc = "latin1" ∨ enc = "ISO-8859-1") ∧
  ("ISO-8859-1" ∈ r.1 ↔ read_csv url "latin1" = App3.UnicodeDecodeError) ∧
  (∀ t, r.2 = Loaded t ↔
        read_csv url "latin1" = App3.ReadOk t ∨
        (read_csv url "latin1" = App3.UnicodeDecodeError ∧
         read_csv url "ISO-8859-1" = App3.ReadOk t)) ∧
  (∀ e, read_csv url "latin1" = App3.OtherError e →
        r.1 = ["latin1"] ∧ ∃ msg, r.2 = Halted msg).
Proof.
  unfold App3.load_csv_from_github.
  destruct (read_csv url "latin1") as [t1| |e1] eqn:E1;
    [|destruct (read_csv url "ISO-8859-1") as [t2| |e2] eqn:E2|]; cbn [fst snd head];
    (split_and!;
     [ done
     | intros enc; rewrite ?elem_of_cons, elem_of_nil; tauto
     | rewrite ?elem_of_cons, elem_of_nil; intuition (discriminate || congruence)
     | intros t; intuition congruence
     | intros e He; try discriminate; eauto ]).
Qed.

Lemma load_csv_from_github_attempts_witness :
  (App3.load_csv_from_github
     (λ _ enc, if bool_decide (enc = "latin1") then App3.OtherError "HTTP Error 404"
               else App3.ReadOk Sample.as_utf8) "u").1 = ["latin1"] ∧
  ∃ msg,
    (App3.load_csv_from_github
       (λ _ enc, if bool_decide (enc = "latin1") then App3.OtherError "HTTP Error 404"
                 else App3.ReadOk Sample.as_utf8) "u").2 = Halted msg.
Proof.
  apply (load_csv_from_github_attempts
           (λ _ enc, if bool_decide (enc = "latin1") then App3.OtherError "HTTP Error 404"
                     else App3.ReadOk Sample.as_utf8) "u") with (e := "HTTP Error 404").
  reflexivity.
Defined.

(** C8 as stated fails: on a source that every encoding can read, the
    only read made is the [latin1] one, and its frame is returned, not
    the UTF-8 one. *)
Lemma utf8_is_not_attempted :
  head (App3.load_csv_from_github Sample.read_csv "u").1 ≠ Some "utf-8" ∧
  App3.load_csv_from_github Sample.read_csv "u" = (["latin1"], Loaded Sample.as_latin1) ∧
  Sample.read_csv "u" "utf-8" = App3.ReadOk Sample.as_utf8.
Proof. split_and!; [by vm_compute|done|done]. Qed.

(** ** The scenario end to end *)

(** On the sample store the run ends normally; of the three contacts the
    two whose normalised party number is the account's normalised id are
    kept: Jane Doe, named in an activity and without affinity code, is
    engaged (yellow); John Smith, with an affinity code, is purple. *)
Example sample_run :
  ensures (App3.script (λ s, Some s) Sample.e) Sample.store
    (λ ac h, ∃ t, h !! ac = Some t ∧
       (λ r, (cell r "party_unique_name", cell r "is_engaged", cell r "status_color"))
         <$> rows t
       = [ (VStr "Jane Doe", VBool true, VStr "yellow");
           (VStr "John Smith", VBool false, VStr "purple") ])
    (λ _, False).
Proof. vm_compute. eexists. split; reflexivity. Qed.

(** * Further properties of the code *)

(** ** Case and white space *)













Lemma lstrip_all_space (a s : string) : all_space a = true → lstrip (a +:+ s) = lstrip s.
Proof.
  induction a as [|c a IH]; [done|]. simpl. intros [Hc Ha]%andb_true_iff.
  rewrite ?app_cons; simpl. rewrite Hc. auto.
Qed.

Lemma rstrip_all_space (s b : string) : all_space b = true → rstrip (s +:+ b) = rstrip s.
Proof.
  intros Hb. induction s as [|c s IH].
  - rewrite app_empty_l. induction b as [|c b IHb]; [done|].
    simpl in *. apply andb_true_iff in Hb as [Hc Hb]. by rewrite IHb, Hc.
  - rewrite ?app_cons; simpl. by rewrite IH.
Qed.



Lemma rstrip_all_space_empty (s : string) : all_space s = true → rstrip s = "".
Proof.
  intros H. rewrite <- (app_empty_l s). by rewrite rstrip_all_space.
Qed.





(** ** Repeated normalisation *)





(** ** Tokens of a name *)


Lemma app_not_empty_r (s : string) (c : ascii) : s +:+ String c "" ≠ "".
Proof. by destruct s. Qed.













(** ** The ids that link contacts to the account *)

Lemma run_bind_done {A B} (m : run A) (k : A → run B) h a h' :
  m h = Done a h' → (m ≫= k) h = k a h'.
Proof. intros H. unfold mbind, run_bind. by rewrite H. Qed.

Lemma elem_of_unique (v : value) (s : list value) : v ∈ unique s ↔ v ∈ s.
Proof.
  induction s as [|w s IH]; [done|]. cbn [unique].
  rewrite !elem_of_cons, list_elem_of_In, filter_In, <- list_elem_of_In, IH.
  rewrite negb_true_iff, bool_decide_eq_false.
  destruct (decide (v = w)) as [->|Hne]; [tauto|]. split.
  - intros [?|[? _]]; auto.
  - intros [?|?]; auto.
Qed.

Lemma NoDup_filter_bool {A} (p : A → bool) (l : list A) :
  NoDup l → NoDup (List.filter p l).
Proof.
  induction 1 as [|x l Hx Hl IH]; simpl; [constructor|].
  destruct (p x); [|done]. constructor; [|done].
  rewrite list_elem_of_In, filter_In, <- list_elem_of_In. tauto.
Qed.

Lemma NoDup_unique (s : list value) : NoDup (unique s).
Proof.
  induction s as [|w s IH]; cbn [unique]; constructor.
  - rewrite list_elem_of_In, filter_In, negb_true_iff, bool_decide_eq_false. tauto.
  - by apply NoDup_filter_bool.
Qed.

Lemma elem_of_dropna (v : value) (s : list value) :
  v ∈ dropna s ↔ v ∈ s ∧ isna v = false.
Proof.
  unfold dropna. by rewrite list_elem_of_In, filter_In, <- list_elem_of_In, negb_true_iff.
Qed.

Lemma elem_of_select (p : gmap string value → bool) (t : table) (r : gmap string value) :
  r ∈ rows (select p t) ↔ r ∈ rows t ∧ p r = true.
Proof. unfold select. cbn [rows]. by rewrite list_elem_of_In, filter_In, <- list_elem_of_In. Qed.


Lemma matching_ids_run (e : App3.env) (h : list table) (d : table) :
  h !! App3.df e = Some d →
  ("Account Name" ∈ columns d →
     ∃ ids, App3.matching_ids e h = Done ids h ∧
            NoDup ids ∧
            Forall (λ v, isna v = false) ids ∧
            ∀ v, v ∈ ids ↔
                 isna v = false ∧
                 ∃ a, a ∈ rows d ∧ App3.is_account e a = true ∧
                      cell a "CustomerId_NAR_clean" = v) ∧
  ("Account Name" ∉ columns d → App3.matching_ids e h = Raised "KeyError" h).
Proof.
  intros Hd. split; intros Hcol.
  - eexists. split_and!.
    + unfold App3.matching_ids, mbind, run_bind, deref. rewrite Hd.
      unfold require_column. by rewrite bool_decide_eq_true_2.
    + apply NoDup_unique.
    + apply Forall_forall. intros v. rewrite elem_of_unique, elem_of_dropna. tauto.
    + intros v. rewrite elem_of_unique, elem_of_dropna, list_elem_of_fmap.
      split.
      * intros [(a & -> & [Ha Hacc]%elem_of_select) Hv]. eauto.
      * intros (Hv & a & Ha & Hacc & <-). split; [|done].
        exists a. by rewrite elem_of_select.
  - unfold App3.matching_ids, mbind, run_bind, deref. rewrite Hd.
    unfold require_column. by rewrite bool_decide_eq_false_2.
Qed.

(** X5.  [matching_ids] reads the store without changing it.  With an
    [Account Name] column in the activity frame it gives a list without
    duplicates and without nulls, which holds exactly the non-null values
    of [CustomerId_NAR_clean] in the rows of the chosen account; without
    that column it raises [KeyError]. *)
Theorem matching_ids_are_the_account_ids (e : App3.env) (h : list table) (d : table) :
  h !! App3.df e = Some d →
  ("Account Name" ∈ columns d →
     ∃ ids, App3.matching_ids e h = Done ids h ∧
            NoDup ids ∧
            Forall (λ v, isna v = false) ids ∧
            ∀ v, v ∈ ids ↔
                 isna v = false ∧
                 ∃ a, a ∈ rows d ∧ App3.is_account e a = true ∧
                      cell a "CustomerId_NAR_clean" = v) ∧
  ("Account Name" ∉ columns d → App3.matching_ids e h = Raised "KeyError" h).
Proof. exact (matching_ids_run e h d). Qed.

Lemma matching_ids_are_the_account_ids_witness :
  ∃ ids, App3.matching_ids Sample.e Sample.store = Done ids Sample.store ∧ NoDup ids.
Proof.
  destruct (matching_ids_are_the_account_ids Sample.e Sample.store Sample.activity)
    as [H _]; [reflexivity|].
  destruct H as (ids & Hrun & Hnd & _); [by apply (bool_decide_unpack _)|].
  by exists ids.
Defined.






(** ** Classifying the contacts of the account *)

Lemma assign_try_assign (c : string) (f : gmap string value → option value)
    (g : gmap string value → value) (t : table) :
  (∀ r, r ∈ rows t → f r = Some (g r)) → assign_try c f t = Some (assign c g t).
Proof.
  intros H. unfold assign_try.
  assert (mapM (λ r, v ← f r; Some (<[c := v]> r)) (rows t)
          = Some ((λ r, <[c := g r]> r) <$> rows t)) as ->; [|done].
  apply mapM_Some_2, Forall2_fmap_r, Forall_Forall2_diag, Forall_forall.
  intros r Hr. by rewrite (H r Hr).
Qed.

Lemma get_status_color_value (row : gmap string value) (code : value) (engaged : bool) :
  row !! "sales_affinity_code" = Some code →
  row !! "is_engaged" = Some (VBool engaged) →
  App3.get_status_color row =
  Some (if bool_decide (strip (py_str code) = "") then (if engaged then "yellow" else "red")
        else "purple").
Proof.
  intros Hc He. unfold App3.get_status_color. rewrite Hc. simpl.
  destruct (bool_decide (strip (py_str code) = "")); simpl; [|done].
  rewrite He. simpl. by destruct engaged.
Qed.

Lemma classify_run (named contacts : nat) (h : list table) (n c : table) :
  h !! named = Some n → h !! contacts = Some c →
  "First Name" ∈ columns n → "Last Name" ∈ columns n →
  well_formed c →
  ∃ c', App3.classify named contacts h = Done () (<[contacts := c']> h) ∧
    (∀ col, col ∈ columns c' ↔
            col ∈ columns c ∨ col ∈ ["is_engaged"; "sales_affinity_code"; "status_color"]) ∧
    Forall2 (λ r r',
        let code := if bool_decide ("sales_affinity_code" ∈ columns c)
                    then cell r "sales_affinity_code" else VStr "" in
        let engaged := App3.has_engaged_match (App3.engaged_names n) r in
        r' !! "is_engaged" = Some (VBool engaged) ∧
        r' !! "sales_affinity_code" = Some code ∧
        r' !! "status_color" =
          Some (VStr (if bool_decide (strip (py_str code) = "")
                      then (if engaged then "yellow" else "red") else "purple")) ∧
        ∀ col, col ∉ ["is_engaged"; "sales_affinity_code"; "status_color"] →
               r' !! col = r !! col)
      (rows c) (rows c').
Proof.
  intros Hn Hc Hfirst Hlast Hwf.
  unfold well_formed in Hwf. rewrite Forall_forall in Hwf.
  pose proof (lookup_lt_Some _ _ _ Hc) as Lc.
  set (eng := λ r : gmap string value,
                VBool (App3.has_engaged_match (App3.engaged_names n) r)).
  set (c1 := assign "is_engaged" eng c).
  set (c2 := if bool_decide ("sales_affinity_code" ∈ columns c1) then c1
             else assign "sales_affinity_code" (λ _, VStr "") c1).
  set (colour := λ r : gmap string value,
        VStr (if bool_decide (strip (py_str (cell r "sales_affinity_code")) = "")
              then (if truthy (cell r "is_engaged") then "yellow" else "red")
              else "purple")).
  assert (("sales_affinity_code" ∈ columns c1) ↔ ("sales_affinity_code" ∈ columns c))
    as Hcol1.
  { unfold c1, assign. cbn [columns]. rewrite elem_of_add_label.
    split; [by intros [?|?]|auto]. }
  assert (∀ r2, r2 ∈ rows c2 →
            (λ r, VStr <$> App3.get_status_color r) r2 = Some (colour r2)) as Hcolour.
  { intros r2 Hr2. cbn beta.
    assert (∃ r code, r ∈ rows c ∧ r2 !! "sales_affinity_code" = Some code ∧
                      r2 !! "is_engaged" = Some (eng r)) as (r & code & Hr & Hcode & Heng).
    { unfold c2 in Hr2. case_bool_decide as Hin.
      - unfold c1, assign in Hr2. cbn [rows] in Hr2.
        apply list_elem_of_fmap in Hr2 as (r & -> & Hr).
        destruct (Hwf r Hr "sales_affinity_code") as [code Hcode]; [by apply Hcol1|].
        exists r, code. split; [done|].
        by rewrite lookup_insert_ne, lookup_insert_eq.
      - unfold c1, assign in Hr2. cbn [rows] in Hr2. rewrite <- list_fmap_compose in Hr2.
        apply list_elem_of_fmap in Hr2 as (r & -> & Hr). cbn [compose].
        exists r, (VStr ""). split; [done|].
        by rewrite lookup_insert_eq, lookup_insert_ne, lookup_insert_eq. }
    rewrite (get_status_color_value r2 code _ Hcode Heng). unfold colour, cell.
    by rewrite Hcode, Heng. }
  exists (assign "status_color" colour c2). split_and!.
  - unfold App3.classify.
    erewrite run_bind_done; [|unfold deref; rewrite Hn; reflexivity].
    erewrite run_bind_done;
      [|unfold require_column; rewrite bool_decide_eq_true_2 by done; reflexivity].
    erewrite run_bind_done;
      [|unfold require_column; rewrite bool_decide_eq_true_2 by done; reflexivity].
    erewrite run_bind_done; [|unfold modify; rewrite Hc; reflexivity].
    fold eng c1.
    erewrite run_bind_done;
      [|unfold deref; rewrite list_lookup_insert_eq by done; reflexivity].
    assert ((if bool_decide ("sales_affinity_code" ∈ columns c1) then mret ()
             else modify contacts (assign "sales_affinity_code" (λ _, VStr "")))
              (<[contacts := c1]> h) = Done () (<[contacts := c2]> h)) as Hstep.
    { unfold c2. case_bool_decide; [done|].
      unfold modify. rewrite list_lookup_insert_eq by done.
      by rewrite list_insert_insert_eq. }
    erewrite run_bind_done; [|exact Hstep].
    unfold modify_try. rewrite list_lookup_insert_eq by done.
    rewrite (assign_try_assign _ _ colour c2 Hcolour).
    by rewrite list_insert_insert_eq.
  - intros col. unfold assign at 1. cbn [columns]. rewrite elem_of_add_label.
    assert (col ∈ columns c2 ↔
            col ∈ columns c ∨ col = "is_engaged" ∨ col = "sales_affinity_code") as ->.
    { unfold c2. case_bool_decide as Hin.
      - unfold c1, assign. cbn [columns]. rewrite elem_of_add_label.
        apply Hcol1 in Hin. split; [tauto|]. intros [?|[?| ->]]; auto.
      - unfold c1, assign. cbn [columns]. rewrite !elem_of_add_label. tauto. }
    rewrite !elem_of_cons, elem_of_nil. tauto.
  - unfold assign at 1. cbn [rows]. unfold c2.
    destruct (bool_decide ("sales_affinity_code" ∈ columns c1)) eqn:Hb.
    + apply bool_decide_eq_true, Hcol1 in Hb.
      rewrite (bool_decide_eq_true_2 _ Hb).
      unfold c1, assign. cbn [rows]. rewrite <- list_fmap_compose.
      apply Forall2_fmap_r, Forall_Forall2_diag, Forall_forall. intros r Hr.
      cbn [compose].
      destruct (Hwf r Hr "sales_affinity_code" Hb) as [code Hcode].
      unfold colour. rewrite !cell_insert.
      assert (cell (<["is_engaged" := eng r]> r) "sales_affinity_code"
              = cell r "sales_affinity_code") as -> by (by rewrite cell_insert_ne).
      split_and!.
      * by rewrite lookup_insert_ne, lookup_insert_eq.
      * rewrite !lookup_insert_ne by done. unfold cell. by rewrite Hcode.
      * by rewrite lookup_insert_eq.
      * intros col Hcol. rewrite !elem_of_cons, elem_of_nil in Hcol.
        rewrite !lookup_insert_ne by (intros <-; tauto). done.
    + apply bool_decide_eq_false in Hb.
      assert ("sales_affinity_code" ∉ columns c) as Hb' by (by rewrite <- Hcol1).
      rewrite (bool_decide_eq_false_2 _ Hb').
      unfold c1, assign. cbn [rows]. rewrite <- !list_fmap_compose.
      apply Forall2_fmap_r, Forall_Forall2_diag, Forall_forall. intros r Hr.
      cbn [compose]. unfold colour. rewrite !cell_insert.
      rewrite (cell_insert_ne _ "sales_affinity_code" "is_engaged") by done.
      rewrite cell_insert.
      split_and!.
      * rewrite lookup_insert_ne by done. rewrite lookup_insert_ne by done.
        by rewrite lookup_insert_eq.
      * by rewrite lookup_insert_ne, lookup_insert_eq.
      * by rewrite lookup_insert_eq.
      * intros col Hcol. rewrite !elem_of_cons, elem_of_nil in Hcol.
        rewrite !lookup_insert_ne by (intros <-; tauto). done.
Qed.

(** X7.  Given a frame of named activities with the columns [First Name]
    and [Last Name], and a well-formed frame of contacts, lines 222-248
    end normally whichever columns the contacts have.  Every contact gets
    a boolean [is_engaged] and one of the three colours: purple when the
    text of its affinity cell is not blank, else yellow when it is
    engaged, else red; when the contacts have no [sales_affinity_code]
    column the code is taken to be empty.  Every other cell is kept. *)
Theorem classify_colours_every_contact (named contacts : nat) (h : list table)
    (n c : table) :
  h !! named = Some n → h !! contacts = Some c →
  "First Name" ∈ columns n → "Last Name" ∈ columns n →
  well_formed c →
  ∃ c', App3.classify named contacts h = Done () (<[contacts := c']> h) ∧
    (∀ col, col ∈ columns c' ↔
            col ∈ columns c ∨ col ∈ ["is_engaged"; "sales_affinity_code"; "status_color"]) ∧
    Forall2 (λ r r',
        let code := if bool_decide ("sales_affinity_code" ∈ columns c)
                    then cell r "sales_affinity_code" else VStr "" in
        let engaged := App3.has_engaged_match (App3.engaged_names n) r in
        r' !! "is_engaged" = Some (VBool engaged) ∧
        r' !! "sales_affinity_code" = Some code ∧
        r' !! "status_color" =
          Some (VStr (if bool_decide (strip (py_str code) = "")
                      then (if engaged then "yellow" else "red") else "purple")) ∧
        ∀ col, col ∉ ["is_engaged"; "sales_affinity_code"; "status_color"] →
               r' !! col = r !! col)
      (rows c) (rows c').
Proof. apply classify_run. Qed.

Lemma sample_contacts_well_formed : well_formed Sample.contacts.
Proof.
  unfold well_formed. repeat constructor;
    intros c Hc; apply (bool_decide_unpack _) ;
    revert c Hc; apply Forall_forall; repeat constructor.
Qed.

Lemma classify_colours_every_contact_witness :
  ∃ c', App3.classify 0 2 Sample.store = Done () (<[2 := c']> Sample.store) ∧
        length (rows c') = 3.
Proof.
  destruct (classify_colours_every_contact 0 2 Sample.store Sample.activity Sample.contacts)
    as (c' & Hrun & _ & Hrows);
    [reflexivity|reflexivity|by apply (bool_decide_unpack _)..|
     apply sample_contacts_well_formed|].
  exists c'. split; [exact Hrun|].
  by rewrite <- (Forall2_length _ _ _ Hrows).
Defined.

(** X8.  A contacts frame without a [sales_affinity_code] column is never
    coloured purple: every contact is yellow when engaged and red
    otherwise. *)
Theorem no_affinity_column_no_purple (named contacts : nat) (h : list table)
    (n c : table) :
  h !! named = Some n → h !! contacts = Some c →
  "First Name" ∈ columns n → "Last Name" ∈ columns n →
  well_formed c →
  "sales_affinity_code" ∉ columns c →
  ∃ c', App3.classify named contacts h = Done () (<[contacts := c']> h) ∧
    Forall2 (λ r r',
        r' !! "status_color" =
          Some (VStr (if App3.has_engaged_match (App3.engaged_names n) r
                      then "yellow" else "red")))
      (rows c) (rows c').
Proof.
  intros Hn Hc H1 H2 Hwf Hcol.
  destruct (classify_run named contacts h n c Hn Hc H1 H2 Hwf) as (c' & Hrun & _ & Hrows).
  exists c'. split; [done|]. eapply Forall2_impl; [exact Hrows|].
  intros r r' (_ & _ & Hs & _). rewrite Hs.
  by rewrite (bool_decide_eq_false_2 _ Hcol).
Qed.

Lemma no_affinity_column_no_purple_witness :
  ∃ c', App3.classify 0 1 [Sample.activity; Table ["party_unique_name"]
                             [ {[ "party_unique_name" := VStr "Jane Doe" ]} ]]
        = Done () (<[1 := c']> [Sample.activity; Table ["party_unique_name"]
                                  [ {[ "party_unique_name" := VStr "Jane Doe" ]} ]]) ∧
        length (rows c') = 1.
Proof.
  destruct (no_affinity_column_no_purple 0 1
              [Sample.activity; Table ["party_unique_name"]
                 [ {[ "party_unique_name" := VStr "Jane Doe" ]} ]]
              Sample.activity
              (Table ["party_unique_name"] [ {[ "party_unique_name" := VStr "Jane Doe" ]} ]))
    as (c' & Hrun & Hrows);
    [reflexivity|reflexivity|by apply (bool_decide_unpack _)..| | |].
  - unfold well_formed. repeat constructor.
    intros c Hc. apply list_elem_of_singleton in Hc as ->. by eexists.
  - by apply (bool_decide_unpack _).
  - exists c'. split; [exact Hrun|]. by rewrite <- (Forall2_length _ _ _ Hrows).
Defined.

(** ** The contacts shown (lines 256-297) *)

Lemma filter_all {A} (p : A → bool) (l : list A) :
  Forall (λ x, p x = true) l → List.filter p l = l.
Proof. induction 1 as [|x l Hx _ IH]; simpl; [done|]. by rewrite Hx, IH. Qed.

Lemma select_all (p : gmap string value → bool) (t : table) :
  Forall (λ r, p r = true) (rows t) → select p t = t.
Proof. intros H. unfold select. rewrite filter_all by done. by destruct t. Qed.

Lemma blank_search_query (search_input : string) :
  all_space search_input = true → lower (strip search_input) = "".
Proof.
  intros H. unfold strip.
  assert (lstrip search_input = "") as ->; [|done].
  rewrite <- (app_empty_r search_input). by rewrite lstrip_all_space.
Qed.

Lemma display_run re (e : App3.env) (color_filter : list string) (search_input : string)
    (named contacts : nat) (h : list table) (n c : table) :
  h !! named = Some n → h !! contacts = Some c →
  "First Name" ∈ columns n → "Last Name" ∈ columns n →
  "status_color" ∈ columns c → "party_unique_name" ∈ columns c →
  all_space search_input = true →
  rows c ≠ [] →
  Forall (λ r, ∃ col, col ∈ color_filter ∧ cell r "status_color" = VStr col) (rows c) →
  App3.display_section re e color_filter search_input named contacts h
  = Done (length h)
      (h ++ [assign "is_engaged"
               (λ r, VBool (App3.check_engaged (App3.engaged_names n)
                              (cell r "party_unique_name"))) c]).
Proof.
  intros Hn Hc H1 H2 Hs Hp Hblank Hne Hcol.
  pose proof (lookup_lt_Some _ _ _ Hn) as Ln.
  assert (select (App3.color_mask color_filter) c = c) as Hsel.
  { apply select_all. eapply Forall_impl; [exact Hcol|].
    intros r (col & Hin & Hr). unfold App3.color_mask, isin. rewrite Hr.
    apply bool_decide_eq_true, list_elem_of_fmap. by exists col. }
  unfold App3.display_section. rewrite (blank_search_query _ Hblank).
  erewrite run_bind_done; [|unfold deref; rewrite Hc; reflexivity].
  erewrite run_bind_done;
    [|unfold require_column; rewrite bool_decide_eq_true_2 by done; reflexivity].
  erewrite run_bind_done; [|unfold alloc; reflexivity]. rewrite Hsel.
  erewrite run_bind_done;
    [|unfold deref; rewrite lookup_app_r, Nat.sub_diag by done; reflexivity].
  rewrite (bool_decide_eq_true_2 ("" = "")) by done. cbn [negb andb].
  erewrite run_bind_done; [|reflexivity].
  erewrite run_bind_done;
    [|unfold deref; rewrite lookup_app_r, Nat.sub_diag by done; reflexivity].
  rewrite (bool_decide_eq_false_2 _ Hne).
  erewrite run_bind_done;
    [|unfold deref; rewrite lookup_app_l by done; rewrite Hn; reflexivity].
  erewrite run_bind_done;
    [|unfold require_column; rewrite bool_decide_eq_true_2 by done; reflexivity].
  erewrite run_bind_done;
    [|unfold require_column; rewrite bool_decide_eq_true_2 by done; reflexivity].
  erewrite run_bind_done;
    [|unfold require_column; rewrite bool_decide_eq_true_2 by done; reflexivity].
  erewrite run_bind_done.
  2: { unfold modify. rewrite lookup_app_r, Nat.sub_diag by done. reflexivity. }
  cbn [mret run_ret]. f_equal.
  rewrite insert_app_r_alt, Nat.sub_diag by done. done.
Qed.

(** X9.  With no text in the search box and every colour of the contacts
    ticked (the default), the section shows every classified contact: it
    ends normally with a new frame that has the rows of the classified
    frame, in order, each with [is_engaged] recomputed from its name. *)
Theorem default_filters_show_every_contact re (e : App3.env)
    (color_filter : list string) (search_input : string)
    (named contacts : nat) (h : list table) (n c : table) :
  h !! named = Some n → h !! contacts = Some c →
  "First Name" ∈ columns n → "Last Name" ∈ columns n →
  "status_color" ∈ columns c → "party_unique_name" ∈ columns c →
  all_space search_input = true →
  rows c ≠ [] →
  Forall (λ r, ∃ col, col ∈ color_filter ∧ cell r "status_color" = VStr col) (rows c) →
  ∃ shown,
    App3.display_section re e color_filter search_input named contacts h
    = Done (length h) (h ++ [shown]) ∧
    rows shown =
      (λ r, <["is_engaged" := VBool (App3.check_engaged (App3.engaged_names n)
                                       (cell r "party_unique_name"))]> r) <$> rows c.
Proof.
  intros. eexists. split; [by apply display_run|done].
Qed.

Lemma default_filters_show_every_contact_witness :
  ∃ shown,
    App3.display_section (λ _ _, true) Sample.e ["red"; "yellow"; "purple"] " " 0 1
      Sample.classified_store
    = Done 2 (Sample.classified_store ++ [shown]) ∧
    length (rows shown) = 1.
Proof.
  destruct (default_filters_show_every_contact (λ _ _, true) Sample.e
              ["red"; "yellow"; "purple"] " " 0 1
              Sample.classified_store Sample.activity Sample.classified)
    as (shown & Hrun & Hrows);
    [reflexivity|reflexivity|by apply (bool_decide_unpack _)..|reflexivity|discriminate| |].
  - repeat constructor. exists "yellow".
    split; [by apply (bool_decide_unpack _)|reflexivity].
  - exists shown. split; [exact Hrun|]. rewrite Hrows. reflexivity.
Defined.

(** X10.  Recomputing [is_engaged] at line 297 changes nothing: when the
    classified frame carries the flag of line 236 and every name is a
    string or missing, the frame shown under the default filters is the
    classified frame itself. *)
Theorem recomputed_flag_is_the_same re (e : App3.env)
    (color_filter : list string) (search_input : string)
    (named contacts : nat) (h : list table) (n c : table) :
  h !! named = Some n → h !! contacts = Some c →
  "First Name" ∈ columns n → "Last Name" ∈ columns n →
  "status_color" ∈ columns c → "party_unique_name" ∈ columns c →
  "is_engaged" ∈ columns c →
  all_space search_input = true →
  rows c ≠ [] →
  Forall (λ r, ∃ col, col ∈ color_filter ∧ cell r "status_color" = VStr col) (rows c) →
  Forall (λ r, r !! "is_engaged"
               = Some (VBool (App3.has_engaged_match (App3.engaged_names n) r)) ∧
               ∃ v, r !! "party_unique_name" = Some v ∧
                    (isna v = true ∨ ∃ s, v = VStr s)) (rows c) →
  App3.display_section re e color_filter search_input named contacts h
  = Done (length h) (h ++ [c]).
Proof.
  intros Hn Hc H1 H2 Hs Hp He Hblank Hne Hcol Hrows.
  rewrite (display_run re e color_filter search_input named contacts h n c) by done.
  do 3 f_equal. destruct c as [cols rs]. unfold assign. cbn [columns rows] in *.
  f_equal.
  - unfold add_label. by rewrite bool_decide_eq_true_2.
  - rewrite <- (list_fmap_id rs) at 2. apply list_fmap_ext.
    intros i r Hr. apply list_elem_of_lookup_2 in Hr.
    rewrite Forall_forall in Hrows. destruct (Hrows r Hr) as (Hflag & v & Hv & Hkind).
    unfold id. apply insert_id. rewrite Hflag. do 2 f_equal.
    unfold cell. rewrite Hv. cbn [default].
    unfold App3.has_engaged_match. rewrite Hv. cbn [default].
    destruct Hkind as [Hna|[s ->]]; [by destruct v|done].
Qed.

Lemma recomputed_flag_is_the_same_witness :
  App3.display_section (λ _ _, true) Sample.e ["red"; "yellow"; "purple"] "" 0 1
    Sample.classified_store
  = Done 2 (Sample.classified_store ++ [Sample.classified]).
Proof.
  apply (recomputed_flag_is_the_same (λ _ _, true) Sample.e ["red"; "yellow"; "purple"] ""
           0 1 Sample.classified_store Sample.activity Sample.classified);
    [reflexivity|reflexivity|by apply (bool_decide_unpack _)..|reflexivity|discriminate| |].
  - repeat constructor. exists "yellow".
    split; [by apply (bool_decide_unpack _)|reflexivity].
  - constructor; [|constructor]. split; [by vm_compute|].
    exists (VStr "Jane Doe"). split; [reflexivity|]. right. by eexists.
Defined.

Lemma filter_none {A} (p : A → bool) (l : list A) :
  Forall (λ x, p x = false) l → List.filter p l = [].
Proof. induction 1 as [|x l Hx _ IH]; simpl; [done|]. by rewrite Hx. Qed.

Lemma filter_some {A} (p : A → bool) (l : list A) :
  Exists (λ x, p x = true) l → List.filter p l ≠ [].
Proof.
  induction 1 as [x l Hx|x l _ IH]; simpl.
  - by rewrite Hx.
  - by destruct (p x).
Qed.

(** X11.  When the contacts have no [party_unique_name] column, line 236
    still classifies them (no contact is engaged), but as soon as one
    contact passes the colour filter line 297 raises [KeyError], whatever
    is typed in the search box. *)
Theorem missing_name_column_raises_at_line_297 re (e : App3.env)
    (color_filter : list string) (search_input : string)
    (named contacts : nat) (h : list table) (n c : table) :
  h !! named = Some n → h !! contacts = Some c →
  "First Name" ∈ columns n → "Last Name" ∈ columns n →
  "status_color" ∈ columns c →
  "party_unique_name" ∉ columns c →
  Exists (λ r, App3.color_mask color_filter r = true) (rows c) →
  (∃ h', App3.display_section re e color_filter search_input named contacts h
         = Raised "KeyError" h') ∧
  (∀ r, r !! "party_unique_name" = None →
        App3.has_engaged_match (App3.engaged_names n) r = false).
Proof.
  intros Hn Hc H1 H2 Hs Hp Hex. split.
  - pose proof (lookup_lt_Some _ _ _ Hn) as Ln. eexists.
    unfold App3.display_section.
    erewrite run_bind_done; [|unfold deref; rewrite Hc; reflexivity].
    erewrite run_bind_done;
      [|unfold require_column; rewrite bool_decide_eq_true_2 by done; reflexivity].
    erewrite run_bind_done; [|unfold alloc; reflexivity].
    erewrite run_bind_done;
      [|unfold deref; rewrite lookup_app_r, Nat.sub_diag by done; reflexivity].
    cbn [select columns]. rewrite (bool_decide_eq_false_2 _ Hp), andb_false_r.
    erewrite run_bind_done; [|reflexivity].
    erewrite run_bind_done;
      [|unfold deref; rewrite lookup_app_r, Nat.sub_diag by done; reflexivity].
    cbn [select rows]. rewrite (bool_decide_eq_false_2 (List.filter _ _ = []))
      by (by apply filter_some).
    erewrite run_bind_done;
      [|unfold deref; rewrite lookup_app_l by done; rewrite Hn; reflexivity].
    erewrite run_bind_done;
      [|unfold require_column; rewrite bool_decide_eq_true_2 by done; reflexivity].
    erewrite run_bind_done;
      [|unfold require_column; rewrite bool_decide_eq_true_2 by done; reflexivity].
    unfold mbind, run_bind, require_column. cbn [select columns].
    rewrite (bool_decide_eq_false_2 _ Hp). reflexivity.
  - intros r Hr. unfold App3.has_engaged_match. by rewrite Hr.
Qed.

Lemma missing_name_column_raises_at_line_297_witness :
  ∃ h', App3.display_section (λ _ _, true) Sample.e ["red"] "jane" 0 1
          [Sample.activity; Table ["status_color"] [ {[ "status_color" := VStr "red" ]} ]]
        = Raised "KeyError" h'.
Proof.
  apply (missing_name_column_raises_at_line_297 (λ _ _, true) Sample.e ["red"] "jane" 0 1
           [Sample.activity; Table ["status_color"] [ {[ "status_color" := VStr "red" ]} ]]
           Sample.activity (Table ["status_color"] [ {[ "status_color" := VStr "red" ]} ]));
    [reflexivity|reflexivity|by apply (bool_decide_unpack _)..|].
  constructor. reflexivity.
Defined.



(** ** The rows of the account (lines 80-179) *)

Lemma insert_at_end {A} (l : list A) (x y : A) : <[length l := y]> (l ++ [x]) = l ++ [y].
Proof. rewrite insert_app_r_alt, Nat.sub_diag by done. done. Qed.


Lemma account_dropdown_done (e : App3.env) (h : list table) (d : table) :
  h !! App3.df e = Some d →
  "Account Name" ∈ columns d →
  App3.account_choice e ≠ App3.placeholder →
  App3.account_dropdown e h = Done () h.
Proof.
  intros Hd Hacc Hpick. unfold App3.account_dropdown.
  erewrite run_bind_done; [|unfold deref; rewrite Hd; reflexivity].
  by rewrite (bool_decide_eq_true_2 _ Hacc), (bool_decide_eq_false_2 _ Hpick).
Qed.





(** X14.  How lines 80-116 end early.  Without an [Account Name] column
    the run is halted with the store untouched; with the column and no
    account picked it is halted with the request to pick one, the store
    untouched; with an account picked that has no row it is halted after
    the (empty) copy was made, before any date is parsed; with rows of
    the account but no [First Name] column it dies on [KeyError]. *)
Theorem account_section_early_ends parse (e : App3.env) (h : list table) (d : table) :
  h !! App3.df e = Some d →
  let run_to_named := (App3.account_dropdown e;; App3.account_section parse e) in
  ("Account Name" ∉ columns d →
     run_to_named h = Stopped "No 'Account Name' column found in dataset." h) ∧
  ("Account Name" ∈ columns d → App3.account_choice e = App3.placeholder →
     run_to_named h = Stopped "Please select an account to view its data." h) ∧
  ("Account Name" ∈ columns d → App3.account_choice e ≠ App3.placeholder →
   Forall (λ r, App3.is_account e r = false) (rows d) →
     run_to_named h
     = Stopped "No data available for this account." (h ++ [Table (columns d) []])) ∧
  ("Account Name" ∈ columns d → App3.account_choice e ≠ App3.placeholder →
   "First Name" ∉ columns d →
   Exists (λ r, App3.is_account e r = true) (rows d) →
     ∃ h', run_to_named h = Raised "KeyError" h').
Proof.
  intros Hd run_to_named. subst run_to_named. split_and!.
  - intros Hacc. unfold mbind at 1, run_bind at 1. unfold App3.account_dropdown.
    erewrite run_bind_done; [|unfold deref; rewrite Hd; reflexivity].
    by rewrite (bool_decide_eq_false_2 _ Hacc).
  - intros Hacc Hpick. unfold mbind at 1, run_bind at 1. unfold App3.account_dropdown.
    erewrite run_bind_done; [|unfold deref; rewrite Hd; reflexivity].
    by rewrite (bool_decide_eq_true_2 _ Hacc), (bool_decide_eq_true_2 _ Hpick).
  - intros Hacc Hpick Hnone.
    erewrite run_bind_done; [|by eapply account_dropdown_done].
    unfold App3.account_section.
    erewrite run_bind_done; [|unfold deref; rewrite Hd; reflexivity].
    rewrite (bool_decide_eq_true_2 _ Hacc). cbn [negb].
    erewrite run_bind_done; [|unfold alloc; reflexivity].
    erewrite run_bind_done;
      [|unfold deref; rewrite lookup_app_r, Nat.sub_diag by done; reflexivity].
    unfold select. cbn [rows]. rewrite (filter_none _ _ Hnone).
    by rewrite bool_decide_eq_true_2.
  - intros Hacc Hpick Hfirst Hex.
    set (a0 := select (App3.is_account e) d).
    assert (∃ a1, (match first_present App3.date_candidates (columns a0) with
                   | Some col => modify (length h)
                                   (assign "__date_col__"
                                      (λ r, to_datetime_coerce parse (cell r col)))
                   | None => mret ()
                   end) (h ++ [a0]) = Done () (h ++ [a1]) ∧
                  "First Name" ∉ columns a1) as (a1 & Hdate & Hcols).
    { destruct (first_present _ _) as [col|] eqn:Hcol.
      - eexists. split.
        + unfold modify. rewrite lookup_app_r, Nat.sub_diag by done.
          cbn [lookup list_lookup]. by rewrite insert_at_end.
        + unfold assign. cbn [columns]. rewrite elem_of_add_label.
          intros [?|?]; [done|discriminate].
      - by exists a0. }
    eexists. erewrite run_bind_done; [|by eapply account_dropdown_done].
    unfold App3.account_section.
    erewrite run_bind_done; [|unfold deref; rewrite Hd; reflexivity].
    rewrite (bool_decide_eq_true_2 _ Hacc). cbn [negb].
    erewrite run_bind_done; [|unfold alloc; reflexivity]. fold a0.
    erewrite run_bind_done;
      [|unfold deref; rewrite lookup_app_r, Nat.sub_diag by done; reflexivity].
    rewrite (bool_decide_eq_false_2 (rows a0 = [])) by (by apply filter_some).
    erewrite run_bind_done; [|exact Hdate].
    erewrite run_bind_done;
      [|unfold deref; rewrite lookup_app_r, Nat.sub_diag by done; reflexivity].
    unfold mbind, run_bind, require_column.
    by rewrite (bool_decide_eq_false_2 _ Hcols).
Qed.

Lemma account_section_early_ends_witness :
  (App3.account_dropdown (App3.Env 0 1 2 "Nobody");;
   App3.account_section (λ s, Some s) (App3.Env 0 1 2 "Nobody")) Sample.store
  = Stopped "No data available for this account."
      (Sample.store ++ [Table (columns Sample.activity) []]).
Proof.
  apply (account_section_early_ends (λ s, Some s) (App3.Env 0 1 2 "Nobody")
           Sample.store Sample.activity);
    [reflexivity|by apply (bool_decide_unpack _)|discriminate|].
  repeat constructor.
Defined.

(** X15.  The firmographics panel never halts the run.  When both frames
    have the [CustomerId_NAR] column it makes a new frame with exactly
    the firmographic rows whose id is the id of some row of the account;
    when either lacks the column it only warns and leaves the store as it
    is, so the contacts section still runs. *)
Theorem firmographics_panel_never_halts (e : App3.env) (account_data : nat)
    (h : list table) (a db : table) :
  h !! account_data = Some a → h !! App3.db_df e = Some db →
  ("CustomerId_NAR" ∈ columns a → "CustomerId_NAR" ∈ columns db →
     ∃ f, App3.firmographics_section e account_data h = Done () (h ++ [f]) ∧
          columns f = columns db ∧
          ∀ r, r ∈ rows f ↔
               r ∈ rows db ∧
               ∃ r0, r0 ∈ rows a ∧ cell r0 "CustomerId_NAR" = cell r "CustomerId_NAR") ∧
  ("CustomerId_NAR" ∉ columns a ∨ "CustomerId_NAR" ∉ columns db →
     App3.firmographics_section e account_data h = Done () h).
Proof.
  intros Ha Hdb. split.
  - intros Hka Hkd. eexists. split_and!.
    + unfold App3.firmographics_section.
      erewrite run_bind_done; [|unfold deref; rewrite Ha; reflexivity].
      erewrite run_bind_done; [|unfold deref; rewrite Hdb; reflexivity].
      rewrite !bool_decide_eq_true_2 by done. cbn [andb].
      erewrite run_bind_done; [|unfold alloc; reflexivity]. reflexivity.
    + done.
    + intros r. rewrite elem_of_select. unfold isin.
      rewrite bool_decide_eq_true, elem_of_unique, list_elem_of_fmap.
      split; intros [Hr (r0 & H1 & H2)]; (split; [done|]); by exists r0.
  - intros Hno. unfold App3.firmographics_section.
    erewrite run_bind_done; [|unfold deref; rewrite Ha; reflexivity].
    erewrite run_bind_done; [|unfold deref; rewrite Hdb; reflexivity].
    destruct Hno as [Hno|Hno]; rewrite (bool_decide_eq_false_2 _ Hno);
      by rewrite ?andb_false_r.
Qed.

Lemma firmographics_panel_never_halts_witness :
  ∃ f, App3.firmographics_section Sample.e 0 Sample.store = Done () (Sample.store ++ [f]) ∧
       columns f = columns Sample.firmographics.
Proof.
  destruct (firmographics_panel_never_halts Sample.e 0 Sample.store
              Sample.activity Sample.firmographics) as [H _]; [reflexivity..|].
  destruct H as (f & Hrun & Hcols & _); [by apply (bool_decide_unpack _)..|].
  by exists f.
Defined.

(** ** app.py: loading, merging, filtering *)

(** X16.  [load_data] gives a frame exactly when one of the three date
    columns is present, and [Activity Date] wins over the other two.  The
    frame has the same rows in the same order; in each the chosen column
    is overwritten by the parsed value (an instant or [NaT]), the new
    column [__date_col__] holds the same value, and every other cell is
    unchanged. *)
Theorem load_data_overwrites_the_date_column parse (df : table) :
  ((∃ msg, App.load_data parse df = Halted msg) ↔
   Forall (λ c, c ∉ columns df) App3.date_candidates) ∧
  ("Activity Date" ∈ columns df →
   first_present App3.date_candidates (columns df) = Some "Activity Date") ∧
  (∀ col, first_present App3.date_candidates (columns df) = Some col →
     ∃ t, App.load_data parse df = Loaded t ∧
          (∀ c, c ∈ columns t ↔ c ∈ columns df ∨ c = "__date_col__") ∧
          Forall2 (λ r r',
              r' !! col = Some (to_datetime_coerce parse (cell r col)) ∧
              r' !! "__date_col__" = Some (to_datetime_coerce parse (cell r col)) ∧
              (cell r' col = VNaT ∨ ∃ ts, cell r' col = VTime ts) ∧
              ∀ c, c ≠ col → c ≠ "__date_col__" → r' !! c = r !! c)
            (rows df) (rows t)).
Proof.
  split_and!.
  - rewrite <- first_present_None. unfold App.load_data.
    destruct (first_present _ _); split; try done; [by intros [? ?]|by eexists].
  - intros H. apply first_present_Some. exists [], ["Activity_DateOnly"; "Date"].
    split_and!; [done|done|constructor].
  - intros col Hcol.
    assert (col ∈ columns df ∧ col ≠ "__date_col__") as [Hin Hne].
    { apply first_present_Some in Hcol as (pre & post & Hc & Hin & _). split; [done|].
      apply date_candidate_not_derived. rewrite Hc, elem_of_app, elem_of_cons. auto. }
    unfold App.load_data. rewrite Hcol. eexists. split_and!; [done| |].
    + intros c. unfold assign. cbn [columns]. rewrite !elem_of_add_label.
      split; [intros [[?| ->]|?]; auto|tauto].
    + unfold assign. cbn [rows]. rewrite <- list_fmap_compose.
      apply Forall2_fmap_r, Forall_Forall2_diag, Forall_forall. intros r _.
      cbn [compose]. rewrite !cell_insert.
      rewrite (cell_insert_ne _ "__date_col__" col) by done. rewrite cell_insert.
      split_and!.
      * by rewrite lookup_insert_ne, lookup_insert_eq.
      * by rewrite lookup_insert_eq.
      * destruct (to_datetime_coerce_cases parse (cell r col)) as [[ts ->]| ->]; eauto.
      * intros c H1 H2. by rewrite !lookup_insert_ne.
Qed.

Lemma load_data_overwrites_the_date_column_witness :
  ∃ t, App.load_data (λ _, None) Sample.activity = Loaded t ∧ length (rows t) = 2.
Proof.
  destruct (load_data_overwrites_the_date_column (λ _, None) Sample.activity)
    as (_ & _ & H).
  destruct (H "Date") as (t & Hrun & _ & Hrows); [reflexivity|].
  exists t. split; [exact Hrun|]. by rewrite <- (Forall2_length _ _ _ Hrows).
Defined.


Lemma sublist_filter_rows {A} (p : A → bool) (l : list A) : sublist (List.filter p l) l.
Proof. induction l as [|x l IH]; simpl; [constructor|]. destruct (p x); by constructor. Qed.







Lemma select_select (p q : gmap string value → bool) (t : table) :
  select q (select p t) = select (λ r, p r && q r) t.
Proof.
  unfold select. cbn [rows columns]. f_equal.
  induction (rows t) as [|r rs IH]; [done|]. simpl.
  destruct (p r); simpl; [destruct (q r)|]; by rewrite IH.
Qed.

Lemma select_ext (p q : gmap string value → bool) (t : table) :
  (∀ r, p r = q r) → select p t = select q t.
Proof. intros H. unfold select. f_equal. by apply filter_ext. Qed.

Lemma filter_types_inv (selected_types : list string) (t t' : table) :
  App.filter_types selected_types t = Some t' →
  t' = select (λ r, bool_decide (selected_types = [])
                    || isin (VStr <$> selected_types) (cell r "Type")) t.
Proof.
  destruct selected_types as [|s l]; simpl.
  - intros [= <-]. symmetry. by apply select_all, Forall_forall.
  - case_bool_decide; [|done]. by intros [= <-].
Qed.

Lemma filter_accounts_inv (selected_accounts : list string) (t t' : table) :
  App.filter_accounts selected_accounts t = Some t' →
  t' = select (λ r, bool_decide (selected_accounts = [])
                    || isin (VStr <$> selected_accounts) (cell r "Account Name")) t.
Proof.
  destruct selected_accounts as [|s l]; simpl.
  - intros [= <-]. symmetry. by apply select_all, Forall_forall.
  - case_bool_decide; [|done]. by intros [= <-].
Qed.

Lemma filter_dates_inv time_le (range : option (string * string)) (t t' : table) :
  App.filter_dates time_le range t = Some t' →
  t' = select (λ r, from_option (λ se, App.in_range time_le se (cell r "__date_col__"))
                      true range) t.
Proof.
  destruct range as [se|]; simpl.
  - case_bool_decide; [|done]. by intros [= <-].
  - intros [= <-]. symmetry. by apply select_all, Forall_forall.
Qed.

Lemma filter_types_is_Some (selected_types : list string) (t : table) :
  (selected_types ≠ [] → "Type" ∈ columns t) →
  is_Some (App.filter_types selected_types t).
Proof.
  destruct selected_types as [|s l]; simpl; [by eexists|]. intros H.
  rewrite bool_decide_eq_true_2 by by apply H. by eexists.
Qed.

Lemma filter_accounts_is_Some (selected_accounts : list string) (t : table) :
  (selected_accounts ≠ [] → "Account Name" ∈ columns t) →
  is_Some (App.filter_accounts selected_accounts t).
Proof.
  destruct selected_accounts as [|s l]; simpl; [by eexists|]. intros H.
  rewrite bool_decide_eq_true_2 by by apply H. by eexists.
Qed.

Lemma filter_dates_is_Some time_le (range : option (string * string)) (t : table) :
  (is_Some range → "__date_col__" ∈ columns t) →
  is_Some (App.filter_dates time_le range t).
Proof.
  destruct range as [se|]; simpl; [|by eexists]. intros H.
  rewrite bool_decide_eq_true_2 by by apply H. by eexists.
Qed.

(** X19.  The three sidebar filters of lines 99-107 amount to one
    conjunction.  When the column of every filter in use is present, the
    filtered frame has the rows of the merged frame, in order, that pass
    every filter in use, where an empty selection and an absent date
    range pass every row; the columns are unchanged, and applying the
    filters in the opposite order gives the same frame. *)
Theorem sidebar_filters_are_a_conjunction
    (time_le : string → string → bool) (selected_types selected_accounts : list string)
    (range : option (string * string)) (merged : table) :
  (selected_types ≠ [] → "Type" ∈ columns merged) →
  (selected_accounts ≠ [] → "Account Name" ∈ columns merged) →
  (is_Some range → "__date_col__" ∈ columns merged) →
  let keep r :=
    (bool_decide (selected_types = [])
     || isin (VStr <$> selected_types) (cell r "Type"))
    && (bool_decide (selected_accounts = [])
        || isin (VStr <$> selected_accounts) (cell r "Account Name"))
    && from_option (λ se, App.in_range time_le se (cell r "__date_col__")) true range in
  App.filtered time_le selected_types selected_accounts range merged
    = Some (Table (columns merged) (List.filter keep (rows merged))) ∧
  (t ← App.filter_dates time_le range merged;
   t ← App.filter_accounts selected_accounts t;
   App.filter_types selected_types t)
    = Some (Table (columns merged) (List.filter keep (rows merged))).
Proof.
  intros Ht Ha Hd keep. fold (select keep merged). split.
  - unfold App.filtered.
    destruct (filter_types_is_Some selected_types merged Ht) as [t1 H1].
    rewrite H1. apply filter_types_inv in H1 as ->. cbn [mbind option_bind].
    destruct (filter_accounts_is_Some selected_accounts
                (select (λ r, bool_decide (selected_types = [])
                              || isin (VStr <$> selected_types) (cell r "Type")) merged) Ha)
      as [t2 H2].
    rewrite H2. apply filter_accounts_inv in H2 as ->. cbn [mbind option_bind].
    match goal with |- App.filter_dates _ _ ?t = _ =>
      destruct (filter_dates_is_Some time_le range t Hd) as [t3 H3] end.
    rewrite H3. apply filter_dates_inv in H3 as ->.
    rewrite !select_select. f_equal. apply select_ext. intros r. apply andb_assoc.
  - destruct (filter_dates_is_Some time_le range merged Hd) as [t1 H1].
    rewrite H1. apply filter_dates_inv in H1 as ->. cbn [mbind option_bind].
    match goal with |- mbind _ (App.filter_accounts _ ?t) = _ =>
      destruct (filter_accounts_is_Some selected_accounts t Ha) as [t2 H2] end.
    rewrite H2. apply filter_accounts_inv in H2 as ->. cbn [mbind option_bind].
    match goal with |- App.filter_types _ ?t = _ =>
      destruct (filter_types_is_Some selected_types t Ht) as [t3 H3] end.
    rewrite H3. apply filter_types_inv in H3 as ->.
    rewrite !select_select. f_equal. apply select_ext. intros r. unfold keep.
    by destruct (bool_decide _ || isin _ (cell r "Type")),
                (bool_decide _ || isin _ (cell r "Account Name")),
                (from_option _ _ range).
Qed.

Lemma sidebar_filters_are_a_conjunction_witness :
  App.filtered String.leb ["Webinar"] [] None Sample.activity
  = Some (Table (columns Sample.activity)
            (List.filter (λ r, isin [VStr "Webinar"] (cell r "Type")) (rows Sample.activity))).
Proof.
  destruct (sidebar_filters_are_a_conjunction String.leb ["Webinar"] [] None Sample.activity)
    as [H _].
  - intros _. by apply (bool_decide_unpack _).
  - done.
  - by intros [? ?].
  - rewrite H. reflexivity.
Defined.

(** X20.  A filter in use drops the rows whose cell is missing.  In any
    frame the filters give, the rows are a sub-list of the merged rows;
    with activity types ticked every row has a text in [Type] that is one
    of them, likewise for accounts; and with a date range every row has a
    parsed date inside the range, so rows whose date did not parse are
    gone. *)
Theorem filters_in_use_drop_missing_cells
    (time_le : string → string → bool) (selected_types selected_accounts : list string)
    (range : option (string * string)) (merged t : table) :
  App.filtered time_le selected_types selected_accounts range merged = Some t →
  columns t = columns merged ∧
  sublist (rows t) (rows merged) ∧
  (selected_types ≠ [] →
   Forall (λ r, ∃ s, cell r "Type" = VStr s ∧ s ∈ selected_types) (rows t)) ∧
  (selected_accounts ≠ [] →
   Forall (λ r, ∃ s, cell r "Account Name" = VStr s ∧ s ∈ selected_accounts) (rows t)) ∧
  (∀ se, range = Some se →
   Forall (λ r, ∃ ts, cell r "__date_col__" = VTime ts ∧
                      time_le se.1 ts = true ∧ time_le ts se.2 = true) (rows t)).
Proof.
  unfold App.filtered. intros H.
  destruct (App.filter_types _ _) as [t1|] eqn:H1; [|done]. cbn [mbind option_bind] in H.
  destruct (App.filter_accounts _ _) as [t2|] eqn:H2; [|done]. cbn [mbind option_bind] in H.
  apply filter_types_inv in H1 as ->. apply filter_accounts_inv in H2 as ->.
  apply filter_dates_inv in H as ->. rewrite !select_select.
  split_and!.
  - done.
  - apply sublist_filter_rows.
  - intros Hne. apply Forall_forall. intros r [_ Hr]%elem_of_select.
    apply andb_true_iff in Hr as [Hr _].
    rewrite (bool_decide_eq_false_2 _ Hne) in Hr. simpl in Hr.
    apply bool_decide_eq_true in Hr. apply list_elem_of_fmap in Hr as (s & Hs & Hin). eauto.
  - intros Hne. apply Forall_forall. intros r [_ Hr]%elem_of_select.
    apply andb_true_iff in Hr as [_ [Hr _]%andb_true_iff].
    rewrite (bool_decide_eq_false_2 _ Hne) in Hr. simpl in Hr.
    apply bool_decide_eq_true in Hr. apply list_elem_of_fmap in Hr as (s & Hs & Hin). eauto.
  - intros se ->. apply Forall_forall. intros r [_ Hr]%elem_of_select.
    apply andb_true_iff in Hr as [_ [_ Hr]%andb_true_iff]. simpl in Hr.
    unfold App.in_range in Hr.
    destruct (cell r "__date_col__") as [| | | | |ts]; try done.
    apply andb_true_iff in Hr as [? ?]. eauto.
Qed.

Lemma filters_in_use_drop_missing_cells_witness :
  ∃ t, App.filtered String.leb ["Webinar"] [] None Sample.activity = Some t ∧
       Forall (λ r, ∃ s, cell r "Type" = VStr s ∧ s ∈ ["Webinar"]) (rows t).
Proof.
  eexists. split; [reflexivity|].
  eapply (filters_in_use_drop_missing_cells String.leb ["Webinar"] [] None Sample.activity);
    [reflexivity|done].
Defined.

(** X21.  Only a failure of the first read is reported.
    [load_csv_from_github] halts the run with a shown message exactly when
    the [latin1] read fails with something other than a decoding fault;
    when the [latin1] read ends in a decoding fault and the [ISO-8859-1]
    read does not give a frame, the function ends in an exception that
    nothing in it catches, and no message is shown. *)
Theorem fallback_failure_is_not_reported
    (read_csv : string → string → App3.read_result) (url : string) :
  let r := App3.load_csv_from_github read_csv url in
  ((∃ msg, r.2 = Halted msg) ↔ ∃ e, read_csv url "latin1" = App3.OtherError e) ∧
  ((∃ exn, r.2 = Uncaught exn) ↔
   read_csv url "latin1" = App3.UnicodeDecodeError ∧
   ∀ t, read_csv url "ISO-8859-1" ≠ App3.ReadOk t).
Proof.
  unfold App3.load_csv_from_github.
  destruct (read_csv url "latin1") as [t1| |e1] eqn:E1;
    [|destruct (read_csv url "ISO-8859-1") as [t2| |e2] eqn:E2|]; cbn [fst snd];
    (split; split; try (intros [? ?]; discriminate); try (intros [? ?]; congruence); eauto).
Qed.

(** ** The whole run of app3.py from the account filter on *)





Lemma fallback_failure_is_not_reported_witness :
  ∃ exn, (App3.load_csv_from_github (λ _ _, App3.UnicodeDecodeError) "u").2 = Uncaught exn.
Proof.
  destruct (fallback_failure_is_not_reported (λ _ _, App3.UnicodeDecodeError) "u")
    as [_ [_ H]].
  apply H. split; [reflexivity|discriminate].
Defined.
